(** * The proctoring monitor of Ai-Mock

    A shallow embedding of the [ProctoringCamera] component, which exists in
    two near-identical copies:

    - [src/components/proctoringCamera.tsx], where the camera is created
      while the effect runs and [camera.start()] carries a [.catch];
    - [unnamed/part_000], where an [async initCamera] first awaits
      [navigator.mediaDevices.getUserMedia] inside a [try]/[catch].

    [showWarning], the [onResults] callback, the [onFrame] callback, the four
    lifecycle handlers and the effect's cleanup are the same text in both
    files and are embedded once.  The two ways of starting the camera are
    embedded separately ([mount_inline] and [mount_autostart]).

    JavaScript numbers are binary64: the coordinates of a bounding box are
    kernel floats ([PrimFloat]) compared with [PrimFloat.ltb], so the
    literals [0.3], [0.7] and [0.75] denote the very doubles the browser
    compares against.  [Date.now()] returns an integral number of
    milliseconds, far below 2^53, so the subtraction in [showWarning] is
    exact and is modelled on [Z]. *)

From Stdlib Require Import ZArith NArith List String Ascii Bool Lia PrimFloat Floats.
Import ListNotations.
Set Warnings "-inexact-float,-register-all".
Local Open Scope string_scope.
Local Open Scope list_scope.
Local Open Scope Z_scope.

(** ** The messages passed to [showWarning] *)

Definition msg_NoFace : string := "⚠️ Face not detected! Stay in front of camera".
Definition msg_MultipleFaces : string := "⚠️ Multiple faces detected!".
Definition msg_OffScreen : string := "⚠️ Please look at the screen!".
Definition msg_LookingDown : string := "⚠️ Don't look down! Possible phone usage".
Definition msg_CameraBlocked : string := "⚠️ Camera turned off or blocked!".
Definition msg_PermissionDenied : string := "⚠️ Camera permission denied!".
Definition msg_TabSwitch : string := "⚠️ Tab switch detected!".
Definition msg_WindowBlur : string := "⚠️ Window changed or minimized!".
Definition msg_FullscreenExit : string := "⚠️ Fullscreen exited!".
Definition msg_DeviceChange : string := "⚠️ Camera/Microphone device changed!".

(** The kinds of violation signal, and the message the component uses for
    each of them. *)
Inductive ViolationKind :=
| NoFace | MultipleFaces | OffScreen | LookingDown | CameraBlocked
| TabSwitch | WindowBlur | FullscreenExit | DeviceChange | PermissionDenied.

Definition message (k : ViolationKind) : string :=
  match k with
  | NoFace => msg_NoFace
  | MultipleFaces => msg_MultipleFaces
  | OffScreen => msg_OffScreen
  | LookingDown => msg_LookingDown
  | CameraBlocked => msg_CameraBlocked
  | TabSwitch => msg_TabSwitch
  | WindowBlur => msg_WindowBlur
  | FullscreenExit => msg_FullscreenExit
  | DeviceChange => msg_DeviceChange
  | PermissionDenied => msg_PermissionDenied
  end.

(** ** Data *)

(** [results.detections[i].boundingBox]: only the centre is read. *)
Record Detection := mkDetection { xCenter : float; yCenter : float }.

(** The argument of the [onResults] callback; [detections] may be
    [undefined], which the callback tests with [!results.detections]. *)
Record Results := mkResults { detections : option (list Detection) }.

(** The fields of the [<video>] element that the component reads or writes.
    [readyState] is an [unsigned short] and [videoWidth] an [unsigned long]
    in the DOM, hence [N].  [srcObject] is the stream that the component
    assigned last; the camera library assigns a stream of its own when it
    starts, which no code of the component reads. *)
Record HTMLVideoElement := mkVideo {
  readyState : N;
  videoWidth : N;
  srcObject : option nat
}.

(** A [Camera] of [@mediapipe/camera_utils], at its boundary: whether its
    frame loop is running. *)
Record Camera := mkCamera { running : bool }.

Inductive EventType := visibilitychange | blur | fullscreenchange | devicechange.

Definition EventType_eqb (a b : EventType) : bool :=
  match a, b with
  | visibilitychange, visibilitychange
  | blur, blur
  | fullscreenchange, fullscreenchange
  | devicechange, devicechange => true
  | _, _ => false
  end.

(** The promise the component is suspended on, when there is one. *)
Inductive Await := AwaitUserMedia | AwaitCameraStart.

(** The calls of the cleanup, each of which is a call into the platform or
    into the camera library and may throw there. *)
Inductive ReleaseCall := RemoveListener (ty : EventType) | CameraStop.

(** The calls whose occurrence the properties below talk about. *)
Inductive Call :=
| CallShowWarning (msg : string)
| CallSend
| CallRelease (c : ReleaseCall).

(** Everything the effect's closures can read or write.

    - [warning] is the React state as the calls of [setWarning] leave it.
      React drops the update of a component that is unmounted, so after an
      unmount the field holds the argument of the last accepted call, which
      no page shows.  [camera] and [lastWarningTime] are the [let]
      variables of the effect.
    - [video] is the DOM element, [refAttached] says whether
      [videoRef.current] points to it (React sets the ref when it mounts the
      component and sets it to [null] when the component unmounts).
    - [hidden] and [fullscreenElement] are [document.hidden] and whether
      [document.fullscreenElement] is non-null.
    - [listeners] holds the event types for which a handler of this run of
      the effect is registered, one entry per registration.
    - [liveStreams] holds the ids of the media streams granted to a
      [getUserMedia] call of the component whose tracks have not been
      stopped.  The stream that the camera library requests for itself in
      [start()] and stops in [stop()] is the library's and is not listed.
    - [awaiting] is the pending promise of the camera start-up and
      [inflight] the number of [faceDetector.send] calls not yet answered.
    - [ticks] counts the reads of [Date.now()].
    - [history] is kept for stating properties only: the calls of
      [showWarning], of [faceDetector.send] and of the release functions,
      oldest first.  No embedded code reads it.

    A world follows one instance of the component and the one run of its
    effect; when React mounts the component again, the world goes on with
    the new instance (see [render]). *)
Record World := mkWorld {
  warning : option string;
  camera : option Camera;
  lastWarningTime : Z;
  video : HTMLVideoElement;
  refAttached : bool;
  hidden : bool;
  fullscreenElement : bool;
  listeners : list EventType;
  liveStreams : list nat;
  awaiting : option Await;
  inflight : nat;
  ticks : nat;
  history : list Call
}.

Definition set_warning (v : option string) (w : World) : World :=
  mkWorld v (camera w) (lastWarningTime w) (video w) (refAttached w)
    (hidden w) (fullscreenElement w) (listeners w) (liveStreams w)
    (awaiting w) (inflight w) (ticks w) (history w).
Definition set_camera (v : option Camera) (w : World) : World :=
  mkWorld (warning w) v (lastWarningTime w) (video w) (refAttached w)
    (hidden w) (fullscreenElement w) (listeners w) (liveStreams w)
    (awaiting w) (inflight w) (ticks w) (history w).
Definition set_lastWarningTime (v : Z) (w : World) : World :=
  mkWorld (warning w) (camera w) v (video w) (refAttached w) (hidden w)
    (fullscreenElement w) (listeners w) (liveStreams w) (awaiting w)
    (inflight w) (ticks w) (history w).
Definition set_video (v : HTMLVideoElement) (w : World) : World :=
  mkWorld (warning w) (camera w) (lastWarningTime w) v (refAttached w)
    (hidden w) (fullscreenElement w) (listeners w) (liveStreams w)
    (awaiting w) (inflight w) (ticks w) (history w).
Definition set_refAttached (v : bool) (w : World) : World :=
  mkWorld (warning w) (camera w) (lastWarningTime w) (video w) v (hidden w)
    (fullscreenElement w) (listeners w) (liveStreams w) (awaiting w)
    (inflight w) (ticks w) (history w).
Definition set_hidden (v : bool) (w : World) : World :=
  mkWorld (warning w) (camera w) (lastWarningTime w) (video w) (refAttached w)
    v (fullscreenElement w) (listeners w) (liveStreams w) (awaiting w)
    (inflight w) (ticks w) (history w).
Definition set_fullscreenElement (v : bool) (w : World) : World :=
  mkWorld (warning w) (camera w) (lastWarningTime w) (video w) (refAttached w)
    (hidden w) v (listeners w) (liveStreams w) (awaiting w) (inflight w)
    (ticks w) (history w).
Definition set_listeners (v : list EventType) (w : World) : World :=
  mkWorld (warning w) (camera w) (lastWarningTime w) (video w) (refAttached w)
    (hidden w) (fullscreenElement w) v (liveStreams w) (awaiting w)
    (inflight w) (ticks w) (history w).
Definition set_liveStreams (v : list nat) (w : World) : World :=
  mkWorld (warning w) (camera w) (lastWarningTime w) (video w) (refAttached w)
    (hidden w) (fullscreenElement w) (listeners w) v (awaiting w) (inflight w)
    (ticks w) (history w).
Definition set_awaiting (v : option Await) (w : World) : World :=
  mkWorld (warning w) (camera w) (lastWarningTime w) (video w) (refAttached w)
    (hidden w) (fullscreenElement w) (listeners w) (liveStreams w) v
    (inflight w) (ticks w) (history w).
Definition set_inflight (v : nat) (w : World) : World :=
  mkWorld (warning w) (camera w) (lastWarningTime w) (video w) (refAttached w)
    (hidden w) (fullscreenElement w) (listeners w) (liveStreams w)
    (awaiting w) v (ticks w) (history w).
Definition set_ticks (v : nat) (w : World) : World :=
  mkWorld (warning w) (camera w) (lastWarningTime w) (video w) (refAttached w)
    (hidden w) (fullscreenElement w) (listeners w) (liveStreams w)
    (awaiting w) (inflight w) v (history w).
Definition set_history (v : list Call) (w : World) : World :=
  mkWorld (warning w) (camera w) (lastWarningTime w) (video w) (refAttached w)
    (hidden w) (fullscreenElement w) (listeners w) (liveStreams w)
    (awaiting w) (inflight w) (ticks w) v.

(** [videoRef.current] *)
Definition videoRef_current (w : World) : option HTMLVideoElement :=
  if refAttached w then Some (video w) else None.

(** The [WarningState] of the specification: the displayed message and the
    time of the last accepted signal. *)
Definition WarningState (w : World) : option string * Z :=
  (warning w, lastWarningTime w).

(** The messages passed to [showWarning] so far, oldest first. *)
Definition signals (w : World) : list string :=
  flat_map (fun c => match c with CallShowWarning m => [m] | _ => [] end)
    (history w).

(** The number of calls of [faceDetector.send] so far. *)
Definition sends (w : World) : nat :=
  List.length (filter (fun c => match c with CallSend => true | _ => false end)
    (history w)).

(** The release calls made so far, oldest first. *)
Definition releases (w : World) : list ReleaseCall :=
  flat_map (fun c => match c with CallRelease r => [r] | _ => [] end)
    (history w).

(** ** Statements that may throw, over the world *)

Inductive Completion (A : Type) : Type :=
| Normal (a : A)
| Throw.
Arguments Normal {A} a.
Arguments Throw {A}.

Definition JS (A : Type) : Type := World -> Completion A * World.

Definition ret {A} (a : A) : JS A := fun w => (Normal a, w).

Definition bind {A B} (m : JS A) (k : A -> JS B) : JS B :=
  fun w =>
    match m w with
    | (Normal a, w') => k a w'
    | (Throw, w') => (Throw, w')
    end.

Definition throw {A} : JS A := fun w => (Throw, w).

(** [try { m } catch { h }] *)
Definition try_catch (m h : JS unit) : JS unit :=
  fun w =>
    match m w with
    | (Normal a, w') => (Normal a, w')
    | (Throw, w') => h w'
    end.

Definition gets {A} (f : World -> A) : JS A := fun w => (Normal (f w), w).
Definition modify (f : World -> World) : JS unit := fun w => (Normal tt, f w).

(** Appends a call to the history. *)
Definition record (c : Call) : JS unit :=
  modify (fun w => set_history (history w ++ [c]) w).

(** [if (c) { m }] without an [else] *)
Definition when (c : bool) (m : JS unit) : JS unit := if c then m else ret tt.

Declare Scope js_scope.
Delimit Scope js_scope with js.
Notation "x <- m ;; k" := (bind m (fun x => k))
  (at level 61, m at next level, right associativity) : js_scope.
Notation "m ;; k" := (bind m (fun _ => k))
  (at level 61, right associativity) : js_scope.
Local Open Scope js_scope.

(** The world a statement leaves, and whether it completed normally. *)
Definition exec {A} (m : JS A) (w : World) : World := snd (m w).

Definition completes {A} (m : JS A) (w : World) : bool :=
  match fst (m w) with Normal _ => true | Throw => false end.

(** ** The component *)

Section Monitor.

(** The successive values of [Date.now()]: the [n]-th read returns
    [clock n]. *)
Variable clock : nat -> Z.

(** Which calls of the cleanup throw. *)
Variable throws : ReleaseCall -> bool.

Definition Date_now : JS Z :=
  fun w => (Normal (clock (ticks w)), set_ticks (S (ticks w)) w).

Definition setWarning (msg : string) : JS unit := modify (set_warning (Some msg)).

(** [[
    const showWarning = (msg: string) => {
      const now = Date.now();
      if (now - lastWarningTime > 3000) {
        setWarning(msg);
        lastWarningTime = now;
      }
    };
    ]] *)
Definition showWarning (msg : string) : JS unit :=
  record (CallShowWarning msg) ;;
  now <- Date_now ;;
  last <- gets lastWarningTime ;;
  if 3000 <? now - last then
    setWarning msg ;;
    modify (set_lastWarningTime now)
  else ret tt.

(** [[
    faceDetector.onResults((results) => {
      if (!results.detections || results.detections.length === 0) {
        showWarning("... Face not detected! ..."); return;
      }
      if (results.detections.length > 1) {
        showWarning("... Multiple faces detected!"); return;
      }
      const face = results.detections[0];
      const box = face.boundingBox;
      const centerX = box.xCenter;
      const centerY = box.yCenter;
      if (centerX < 0.3 || centerX > 0.7 || centerY < 0.3) {
        showWarning("... Please look at the screen!");
      }
      if (centerY > 0.75) {
        showWarning("... Don't look down! ...");
      }
    });
    ]] *)
Definition onResults (results : Results) : JS unit :=
  match detections results with
  | None => showWarning msg_NoFace
  | Some ds =>
    if (List.length ds =? 0)%nat then showWarning msg_NoFace
    else if (1 <? List.length ds)%nat then showWarning msg_MultipleFaces
    else
      match ds with
      | [] => ret tt
      | face :: _ =>
        let centerX := xCenter face in
        let centerY := yCenter face in
        when ((centerX <? 0.3)%float || (0.7 <? centerX)%float
              || (centerY <? 0.3)%float)
          (showWarning msg_OffScreen) ;;
        when (0.75 <? centerY)%float
          (showWarning msg_LookingDown)
      end
  end.

(** [faceDetector.send({ image })]: the call is made and its answer is
    outstanding until the detector invokes the [onResults] callback. *)
Definition faceDetector_send : JS unit :=
  record CallSend ;;
  modify (fun w => set_inflight (S (inflight w)) w).

(** [[
    onFrame: async () => {
      if (videoRef.current) {
        if (videoRef.current.readyState < 2 ||
            videoRef.current.videoWidth === 0) {
          showWarning("... Camera turned off or blocked!");
          return;
        }
        await faceDetector.send({ image: videoRef.current });
      }
    },
    ]] *)
Definition onFrame : JS unit :=
  ref <- gets videoRef_current ;;
  match ref with
  | Some v =>
    if (readyState v <? 2)%N || (videoWidth v =? 0)%N then
      showWarning msg_CameraBlocked
    else faceDetector_send
  | None => ret tt
  end.

(** [if (document.hidden) showWarning("... Tab switch detected!")] *)
Definition handleVisibilityChange : JS unit :=
  h <- gets hidden ;;
  when h (showWarning msg_TabSwitch).

Definition handleBlur : JS unit := showWarning msg_WindowBlur.

(** [if (!document.fullscreenElement) showWarning("... Fullscreen exited!")] *)
Definition handleFullscreenChange : JS unit :=
  el <- gets fullscreenElement ;;
  when (negb el) (showWarning msg_FullscreenExit).

Definition handleDeviceChange : JS unit := showWarning msg_DeviceChange.

Definition handler (ty : EventType) : JS unit :=
  match ty with
  | visibilitychange => handleVisibilityChange
  | blur => handleBlur
  | fullscreenchange => handleFullscreenChange
  | devicechange => handleDeviceChange
  end.

(** [target.addEventListener(ty, handler ty)].  The DOM ignores a second
    registration of the same callback for the same type. *)
Definition addEventListener (ty : EventType) : JS unit :=
  modify (fun w =>
    if existsb (EventType_eqb ty) (listeners w) then w
    else set_listeners (listeners w ++ [ty]) w).

(** [target.removeEventListener(ty, handler ty)] *)
Definition removeEventListener (ty : EventType) : JS unit :=
  record (CallRelease (RemoveListener ty)) ;;
  if throws (RemoveListener ty) then throw
  else
    modify (fun w =>
      set_listeners
        (filter (fun x => negb (EventType_eqb ty x)) (listeners w)) w).

(** [camera.start()] up to its suspension: the returned promise is
    pending. *)
Definition Camera_start : JS unit := modify (set_awaiting (Some AwaitCameraStart)).

(** [camera.stop()] of the camera library: the frame loop ends and the
    library stops the tracks of the stream that its own [start()] had
    requested.  It does not touch [srcObject], nor a stream that the
    component requested and attached itself.  The variable [camera] keeps
    pointing to the stopped object. *)
Definition Camera_stop : JS unit :=
  record (CallRelease CameraStop) ;;
  if throws CameraStop then throw
  else modify (set_camera (Some (mkCamera false))).

Definition addListeners : JS unit :=
  addEventListener visibilitychange ;;
  addEventListener blur ;;
  addEventListener fullscreenchange ;;
  addEventListener devicechange.

(** The body of the effect in [src/components/proctoringCamera.tsx]:
    [[
    let camera: Camera | null = null;
    let lastWarningTime = 0;
    ...
    if (videoRef.current) {
      camera = new Camera(videoRef.current, { onFrame, width, height });
      camera.start().catch(() => {
        showWarning("... Camera permission denied!");
      });
    }
    ...
    document.addEventListener("visibilitychange", handleVisibilityChange);
    window.addEventListener("blur", handleBlur);
    document.addEventListener("fullscreenchange", handleFullscreenChange);
    navigator.mediaDevices.addEventListener("devicechange", handleDeviceChange);
    ]] *)
Definition mount_inline : JS unit :=
  modify (set_camera None) ;;
  modify (set_lastWarningTime 0) ;;
  ref <- gets videoRef_current ;;
  match ref with
  | Some _ =>
    modify (set_camera (Some (mkCamera false))) ;;
    Camera_start
  | None => ret tt
  end ;;
  addListeners.

(** [initCamera()] of [unnamed/part_000] up to its first suspension,
    [[
    const initCamera = async () => {
      try {
        const stream = await navigator.mediaDevices.getUserMedia({ video: true });
    ]]
    where the request is pending. *)
Definition initCamera : JS unit := modify (set_awaiting (Some AwaitUserMedia)).

(** The body of the effect in [unnamed/part_000]:
    [[
    let camera: Camera | null = null;
    let lastWarningTime = 0;
    ...
    initCamera();
    ...
    document.addEventListener("visibilitychange", handleVisibilityChange);
    window.addEventListener("blur", handleBlur);
    document.addEventListener("fullscreenchange", handleFullscreenChange);
    navigator.mediaDevices.addEventListener("devicechange", handleDeviceChange);
    ]] *)
Definition mount_autostart : JS unit :=
  modify (set_camera None) ;;
  modify (set_lastWarningTime 0) ;;
  initCamera ;;
  addListeners.

(** The rest of the [try] block of [initCamera], entered when [getUserMedia]
    resolves with [stream]:
    [[
    if (videoRef.current) {
      videoRef.current.srcObject = stream;
      camera = new Camera(videoRef.current, { onFrame, width, height });
      await camera.start();
    }
    ]] *)
Definition initCamera_resume (stream : nat) : JS unit :=
  ref <- gets videoRef_current ;;
  match ref with
  | Some v =>
    modify (set_video (mkVideo (readyState v) (videoWidth v) (Some stream))) ;;
    modify (set_camera (Some (mkCamera false))) ;;
    Camera_start
  | None => ret tt
  end.

(** The handler of a failed camera start, the same statement in the
    [.catch] of one file and the [catch] block of the other. *)
Definition onCameraError : JS unit := showWarning msg_PermissionDenied.

(** The function the effect returns:
    [[
    return () => {
      document.removeEventListener("visibilitychange", handleVisibilityChange);
      window.removeEventListener("blur", handleBlur);
      document.removeEventListener("fullscreenchange", handleFullscreenChange);
      navigator.mediaDevices.removeEventListener("devicechange", handleDeviceChange);
      if (camera) camera.stop();
    };
    ]] *)
Definition cleanup : JS unit :=
  removeEventListener visibilitychange ;;
  removeEventListener blur ;;
  removeEventListener fullscreenchange ;;
  removeEventListener devicechange ;;
  cam <- gets camera ;;
  match cam with
  | Some _ => Camera_stop
  | None => ret tt
  end.

(** ** The host: what the browser, React and the libraries do to the
    component *)

Inductive Source := Inline | AutoStart.

Inductive Event :=
| EvMount (src : Source)            (* React runs the effect *)
| EvUnmount                         (* React detaches the ref and runs the cleanup *)
| EvVisibility (nowHidden : bool)   (* the document becomes hidden or visible *)
| EvBlur                            (* the window loses focus *)
| EvFullscreen (element : bool)     (* the fullscreen element changes *)
| EvDevice                          (* the set of media devices changes *)
| EvVideo (rs vw : N)               (* the video element's media state changes *)
| EvFrame                           (* the camera delivers a frame *)
| EvResults (r : Results)           (* the detector answers a send *)
| EvGranted (stream : nat)          (* getUserMedia resolves *)
| EvStarted                         (* camera.start() resolves *)
| EvRejected.                       (* the pending start-up promise rejects *)

(** The browser dispatching an event of type [ty]: the handler runs when it
    is registered. *)
Definition dispatchEvent (ty : EventType) : JS unit :=
  ls <- gets listeners ;;
  when (existsb (EventType_eqb ty) ls) (handler ty).

(** React mounts a new instance of the component, before its effect runs:
    [[
    const videoRef = useRef<HTMLVideoElement | null>(null);
    const [warning, setWarning] = useState<string | null>(null);
    ...
    <video ref={videoRef} ... />
    ]]
    The state is [null], a new video element is rendered and the ref points
    to it; the variables, the detector and the handlers of the coming run
    of the effect are new, so no call of this detector is outstanding, no
    promise of this run is pending and none of its handlers is registered.
    What belongs to the page stays: the flags of the document, the streams
    granted so far, the clock.  Callbacks that still reach the closures of
    an earlier instance are not followed. *)
Definition render (w : World) : World :=
  mkWorld None None 0 (mkVideo 0 0 None) true (hidden w) (fullscreenElement w)
    [] (liveStreams w) None 0 (ticks w) (history w).

(** What one event of the host makes the component do.  A frame is
    delivered by a camera whose loop is running; the detector answers only
    calls that are outstanding; a promise settles only while the component
    is suspended on it.  Mounting renders a new instance and runs the
    effect of the named file; unmounting detaches the ref and runs the
    cleanup. *)
Definition step (e : Event) : JS unit :=
  match e with
  | EvMount Inline => modify render ;; mount_inline
  | EvMount AutoStart => modify render ;; mount_autostart
  | EvUnmount =>
    modify (set_refAttached false) ;;
    cleanup
  | EvVisibility h =>
    modify (set_hidden h) ;;
    dispatchEvent visibilitychange
  | EvBlur => dispatchEvent blur
  | EvFullscreen el =>
    modify (set_fullscreenElement el) ;;
    dispatchEvent fullscreenchange
  | EvDevice => dispatchEvent devicechange
  | EvVideo rs vw =>
    modify (fun w => set_video (mkVideo rs vw (srcObject (video w))) w)
  | EvFrame =>
    cam <- gets camera ;;
    match cam with
    | Some c => when (running c) onFrame
    | None => ret tt
    end
  | EvResults r =>
    n <- gets inflight ;;
    match n with
    | O => ret tt
    | S k => modify (set_inflight k) ;; onResults r
    end
  | EvGranted stream =>
    a <- gets awaiting ;;
    match a with
    | Some AwaitUserMedia =>
      modify (set_awaiting None) ;;
      modify (fun w => set_liveStreams (liveStreams w ++ [stream]) w) ;;
      try_catch (initCamera_resume stream) onCameraError
    | _ => ret tt
    end
  | EvStarted =>
    a <- gets awaiting ;;
    match a with
    | Some AwaitCameraStart =>
      modify (set_awaiting None) ;;
      modify (set_camera (Some (mkCamera true)))
    | _ => ret tt
    end
  | EvRejected =>
    a <- gets awaiting ;;
    match a with
    | Some _ => modify (set_awaiting None) ;; onCameraError
    | None => ret tt
    end
  end.

(** The event loop: the events are handled one after the other; an
    exception that escapes a callback is reported by the host and the loop
    goes on. *)
Fixpoint run (evs : list Event) (w : World) : World :=
  match evs with
  | [] => w
  | e :: rest => run rest (exec (step e) w)
  end.

End Monitor.

(** The page before the component's effect runs: the element is rendered and
    the ref attached, nothing has been displayed or registered yet. *)
Definition initial : World :=
  mkWorld None None 0 (mkVideo 0 0 None) true false false [] [] None 0 0 [].

(** A clock that returns the same value at every read. *)
Definition frozen (t : Z) : nat -> Z := fun _ => t.

(** A clock that returns the values of a list in turn, then its last
    value for ever. *)
Definition clock_of (ts : list Z) : nat -> Z :=
  fun n => nth n ts (last ts 0).

(** No release call throws. *)
Definition no_throw : ReleaseCall -> bool := fun _ => false.

(** A sequence of signals reaching the throttler one after the other,
    whichever callbacks they come from. *)
Fixpoint deliver (clock : nat -> Z) (msgs : list string) : JS unit :=
  match msgs with
  | [] => ret tt
  | m :: rest => showWarning clock m ;; deliver clock rest
  end.

(** The first signal of [msgs] that the throttler accepts, with its time,
    when the [i]-th signal is delivered at [clock (k + i)] and the last
    acceptance before them was at [last]. *)
Fixpoint first_accepted (clock : nat -> Z) (last : Z) (k : nat)
    (msgs : list string) : option (string * Z) :=
  match msgs with
  | [] => None
  | m :: rest =>
    if 3000 <? clock k - last then Some (m, clock k)
    else first_accepted clock last (S k) rest
  end.

(** The release calls of the cleanup in the order it makes them. *)
Definition release_plan (w : World) : list ReleaseCall :=
  [RemoveListener visibilitychange; RemoveListener blur;
   RemoveListener fullscreenchange; RemoveListener devicechange]
  ++ match camera w with Some _ => [CameraStop] | None => [] end.

(** The calls of a plan that are reached when the first throwing call ends
    the sequence. *)
Fixpoint attempted (throws : ReleaseCall -> bool) (plan : list ReleaseCall)
    : list ReleaseCall :=
  match plan with
  | [] => []
  | c :: rest => c :: (if throws c then [] else attempted throws rest)
  end.

(** Only the first removal throws. *)
Definition first_removal_throws (c : ReleaseCall) : bool :=
  match c with
  | RemoveListener visibilitychange => true
  | _ => false
  end.

(** The world once a call of [showWarning] has been noted and the clock
    read. *)
Definition noted (msg : string) (w : World) : World :=
  set_ticks (S (ticks w)) (set_history (history w ++ [CallShowWarning msg]) w).

(** The four lifecycle events of the browser. *)
Definition is_lifecycle (e : Event) : bool :=
  match e with
  | EvVisibility _ | EvBlur | EvFullscreen _ | EvDevice => true
  | _ => false
  end.

(** One release call, and a plan of them made in order. *)
Definition release (throws : ReleaseCall -> bool) (c : ReleaseCall) : JS unit :=
  match c with
  | RemoveListener ty => removeEventListener throws ty
  | CameraStop => Camera_stop throws
  end.

Fixpoint release_all (throws : ReleaseCall -> bool) (plan : list ReleaseCall)
    : JS unit :=
  match plan with
  | [] => ret tt
  | c :: rest => release throws c ;; release_all throws rest
  end.

Definition is_mount (e : Event) : bool :=
  match e with
  | EvMount _ => true
  | _ => false
  end.

(** Whether every event of a run is handled without an exception escaping
    the callback. *)
Fixpoint all_complete (clock : nat -> Z) (throws : ReleaseCall -> bool)
    (evs : list Event) (w : World) : bool :=
  match evs with
  | [] => true
  | e :: rest =>
    completes (step clock throws e) w &&
    all_complete clock throws rest (exec (step clock throws e) w)
  end.

(** A statement keeps a property of the world. *)
Definition preserves {A} (P : World -> Prop) (m : JS A) : Prop :=
  forall w, P w -> P (exec m w).

(** No camera start-up is pending and the permission message is not the
    one displayed. *)
Definition denial_absent (w : World) : Prop :=
  awaiting w = None /\ warning w <> Some msg_PermissionDenied.

(** The stream [s] is live while no camera object exists and no start-up
    is pending: nothing is left that could stop it. *)
Definition leaked (s : nat) (w : World) : Prop :=
  camera w = None /\ awaiting w = None /\ In s (liveStreams w).

(** The part of the world the throttler works on: the displayed message,
    the time of the last acceptance and the number of clock reads. *)
Definition throttle_state (w : World) : option string * Z * nat :=
  (warning w, lastWarningTime w, ticks w).

(** The displayed message is absent or is one of the ten messages of the
    component. *)
Definition known_message (m : option string) : Prop :=
  m = None \/ exists k, m = Some (message k).

(** The signal that each lifecycle event of the browser stands for. *)
Definition fan_in (e : Event) : list string :=
  match e with
  | EvVisibility true => [message TabSwitch]
  | EvBlur => [message WindowBlur]
  | EvFullscreen false => [message FullscreenExit]
  | EvDevice => [message DeviceChange]
  | _ => []
  end.

(** [lo <= v && v <= hi] on doubles, and the coordinates on which neither
    comparison of a position check can succeed: those inside the closed
    interval, and NaN. *)
Definition within (lo hi v : float) : bool :=
  (lo <=? v)%float && (v <=? hi)%float.

Definition quiet_coordinate (lo hi v : float) : bool :=
  is_nan v || within lo hi v.

Definition quiet_position (face : Detection) : bool :=
  quiet_coordinate 0.3 0.7 (xCenter face) &&
  quiet_coordinate 0.3 0.75 (yCenter face).

(** The sequences of signals that one call of [onResults] can produce. *)
Definition classifier_outcomes : list (list string) :=
  [ [message NoFace]; [message MultipleFaces]; [];
    [message OffScreen]; [message LookingDown];
    [message OffScreen; message LookingDown] ].

(** * The pages around the monitor

    [src/components/record-answer.tsx] renders the monitor and
    [src/components/form-mock-interview.tsx] creates the interviews; both
    clean the text an AI service returns before parsing it. *)

(** ** JavaScript strings

    A string is its sequence of UTF-16 code units; [length], [indexOf],
    [slice], [trim] and a regular expression without the [u] flag all work
    on code units. *)

Definition JSString : Type := list N.

(** An ASCII literal of the source as a string. *)
Definition lit (s : string) : JSString :=
  map N_of_ascii (list_ascii_of_string s).

Fixpoint JSString_eqb (a b : JSString) : bool :=
  match a, b with
  | [], [] => true
  | x :: a', y :: b' => (x =? y)%N && JSString_eqb a' b'
  | _, _ => false
  end.

(** Whether the pattern [p] matches at the start of [s]. *)
Definition startsWith (s p : JSString) : bool :=
  JSString_eqb (firstn (List.length p) s) p.

(** [s.indexOf(c)] for a one-character search string: the index of the
    first occurrence, [-1] when there is none. *)
Fixpoint indexOf (s : JSString) (c : N) : Z :=
  match s with
  | [] => -1
  | x :: rest =>
    if (x =? c)%N then 0
    else let i := indexOf rest c in if i =? -1 then -1 else i + 1
  end.

(** [s.lastIndexOf(c)]: the index of the last occurrence, [-1] when there
    is none. *)
Fixpoint lastIndexOf (s : JSString) (c : N) : Z :=
  match s with
  | [] => -1
  | x :: rest =>
    let i := lastIndexOf rest c in
    if i =? -1 then (if (x =? c)%N then 0 else -1) else i + 1
  end.

(** [s.slice(from, to)]: a negative index counts from the end, both are
    clamped to the string, and the result is empty when [to] is not after
    [from]. *)
Definition slice (s : JSString) (from to : Z) : JSString :=
  let len := Z.of_nat (List.length s) in
  let k := if from <? 0 then Z.max (len + from) 0 else Z.min from len in
  let final := if to <? 0 then Z.max (len + to) 0 else Z.min to len in
  firstn (Z.to_nat (final - k)) (skipn (Z.to_nat k) s).

(** The white space and line terminators that [trim] removes. *)
Definition isWhiteSpace (c : N) : bool :=
  existsb (N.eqb c)
    [9; 10; 11; 12; 13; 32; 160; 5760; 8192; 8193; 8194; 8195; 8196; 8197;
     8198; 8199; 8200; 8201; 8202; 8232; 8233; 8239; 8287; 12288; 65279]%N.

Fixpoint trimStart (s : JSString) : JSString :=
  match s with
  | [] => []
  | c :: rest => if isWhiteSpace c then trimStart rest else s
  end.

Definition trim (s : JSString) : JSString :=
  rev (trimStart (rev (trimStart s))).

(** [parts.join(sep)] *)
Fixpoint join (sep : JSString) (parts : list JSString) : JSString :=
  match parts with
  | [] => []
  | [x] => x
  | x :: rest => x ++ sep ++ join sep rest
  end.

Definition str_json : JSString := lit "json".
Definition str_fence : JSString := lit "```".
Definition str_tick : JSString := lit "`".
Definition backtick : N := 96.
Definition bracket_open : N := 91.
Definition bracket_close : N := 93.

(** [s.replace(/(json|```|`)/g, "")]: scanning from the left, at each
    position the first alternative that matches is removed and the scan
    goes on after it; a character where none matches is kept. *)
Fixpoint strip_fences (s : JSString) : JSString :=
  match s with
  | [] => []
  | c :: rest =>
    if startsWith s str_json then
      match rest with
      | _ :: _ :: _ :: rest' => strip_fences rest'
      | _ => []
      end
    else if startsWith s str_fence then
      match rest with
      | _ :: _ :: rest' => strip_fences rest'
      | _ => []
      end
    else if startsWith s str_tick then strip_fences rest
    else c :: strip_fences rest
  end.

(** The pattern [p] occurs somewhere in [s]. *)
Definition occurs (p s : JSString) : Prop :=
  exists a b, s = a ++ p ++ b.

(** ** JavaScript values

    What [JSON.parse] can return: [null], a boolean, a number, a string, an
    array, or an object with its own properties, each name once. *)
Inductive JSValue :=
| JSNull
| JSBoolean (b : bool)
| JSNumber (x : float)
| JSText (s : JSString)
| JSArray (items : list JSValue)
| JSObject (properties : list (JSString * JSValue)).

(** [!v] is [negb (truthy v)]: the falsy values are [null], [false], [0],
    [-0], [NaN] and the empty string. *)
Definition truthy (v : JSValue) : bool :=
  match v with
  | JSNull => false
  | JSBoolean b => b
  | JSNumber x => negb ((x =? 0)%float || is_nan x)
  | JSText s => match s with [] => false | _ :: _ => true end
  | JSArray _ | JSObject _ => true
  end.

Fixpoint own_property (name : JSString) (properties : list (JSString * JSValue))
    : option JSValue :=
  match properties with
  | [] => None
  | (k, v) :: rest =>
    if JSString_eqb k name then Some v else own_property name rest
  end.

(** [v.name] for a name that no prototype defines, as [feedback] and
    [ratings] are: the own property of an object, and [undefined] ([None])
    on a boolean, a number, a string or an array.  On [null] the access
    throws; the code below reads a property only of a truthy value. *)
Definition get (name : JSString) (v : JSValue) : option JSValue :=
  match v with
  | JSObject properties => own_property name properties
  | _ => None
  end.

(** The outcome of a function that returns or throws an [Error] with a
    message. *)
Inductive Outcome (A : Type) : Type :=
| Returns (a : A)
| Throws (msg : string).
Arguments Returns {A} a.
Arguments Throws {A} msg.

Section Parsing.

(** [JSON.parse] on a text, [None] when it throws a [SyntaxError]; the
    value type stands for what the caller casts the result to. *)
Variable Json : Type.
Variable JSON_parse : JSString -> option Json.

(** [record-answer.tsx]:
    [[
    const cleanJsonResponse = (responseText: string) => {
      let cleanText = responseText.trim();
      cleanText = cleanText.replace(/(json|```|`)/g, "");
      try {
        return JSON.parse(cleanText);
      } catch (error) {
        throw new Error("Invalid JSON format");
      }
    };
    ]] *)
Definition cleanJsonResponse (responseText : JSString) : Outcome Json :=
  let cleanText := trim responseText in
  let cleanText := strip_fences cleanText in
  match JSON_parse cleanText with
  | Some v => Returns v
  | None => Throws "Invalid JSON format"
  end.

(** [form-mock-interview.tsx]:
    [[
    const cleanAiResponse = (text: string) => {
      const start = text.indexOf("[");
      const end = text.lastIndexOf("]");
      if (start === -1 || end === -1) {
        throw new Error("Invalid AI response");
      }
      return JSON.parse(text.slice(start, end + 1));
    };
    ]]
    A [SyntaxError] of [JSON.parse] escapes as it is. *)
Definition cleanAiResponse (text : JSString) : Outcome Json :=
  let start := indexOf text bracket_open in
  let end_ := lastIndexOf text bracket_close in
  if (start =? -1) || (end_ =? -1) then Throws "Invalid AI response"
  else
    match JSON_parse (slice text start (end_ + 1)) with
    | Some v => Returns v
    | None => Throws "SyntaxError"
    end.

End Parsing.

(** ** [src/components/tooltip-button.tsx] *)

(** What [TooltipButton] renders, as far as behaviour goes: whether the
    button is disabled, the handler a click runs, whether the spinner
    replaces the icon, and the text of the tooltip. *)
Record RenderedButton (A : Type) := mkRenderedButton {
  button_disabled : bool;
  button_onClick : option A;
  button_spinner : bool;
  button_tooltip : string
}.
Arguments mkRenderedButton {A}.
Arguments button_disabled {A}.
Arguments button_onClick {A}.
Arguments button_spinner {A}.
Arguments button_tooltip {A}.

(** [[
    const isDisabled = disabled || loading;
    ...
    <Button disabled={isDisabled} onClick={isDisabled ? undefined : onClick}>
      {loading ? <Loader /> : icon}
    </Button>
    ...
    <p>{loading ? "Loading..." : content}</p>
    ]]
    The parameters [disabled] and [loading] default to [false] where a
    caller does not pass them. *)
Definition TooltipButton {A} (content : string) (onClick : option A)
    (disabled loading : bool) : RenderedButton A :=
  let isDisabled := disabled || loading in
  mkRenderedButton isDisabled
    (if isDisabled then None else onClick)
    loading
    (if loading then "Loading..." else content).

(** ** [src/components/record-answer.tsx] *)

Module RecordAnswer.

(** [[
    interface AIResponse { ratings: number; feedback: string; }
    ]]
    The interface is a compile-time annotation and is erased.
    [cleanJsonResponse] returns the [any] of [JSON.parse] and
    [const parsedResult: AIResponse = cleanJsonResponse(...)] checks
    nothing, so at run time a value of this type is whatever value the text
    of the service denotes, [null] included. *)
Definition AIResponse : Type := JSValue.

(** [{ ratings, feedback }], an object literal with these two properties. *)
Definition mkAIResponse (ratings : float) (feedback : JSString) : AIResponse :=
  JSObject [(lit "ratings", JSNumber ratings); (lit "feedback", JSText feedback)].

(** [r.ratings] and [r.feedback]; [None] is [undefined]. *)
Definition ratings (r : AIResponse) : option JSValue := get (lit "ratings") r.
Definition feedback (r : AIResponse) : option JSValue := get (lit "feedback") r.

Record Question := mkQuestion { question : JSString; answer : JSString }.

(** A document of the [userAnswers] collection; its [createdAt] is filled
    in by the server.  [feedback] and [rating] hold what the two property
    reads of [saveUserAnswer] evaluate to. *)
Record AnswerDoc := mkAnswerDoc {
  mockIdRef : option JSString;
  doc_question : JSString;
  correct_ans : JSString;
  user_ans : JSString;
  doc_feedback : option JSValue;
  rating : option JSValue;
  doc_userId : option JSString
}.

Inductive ToastKind := ToastPlain | ToastError | ToastInfo.

Record Toast := mkToast {
  toast_kind : ToastKind;
  toast_title : string;
  toast_description : string
}.

Inductive SpeechCall := startSpeechToText | stopSpeechToText.

(** An element of [results] of the speech hook: a plain string of its
    legacy mode, or a result with its transcript. *)
Inductive SpeechResult :=
| LegacyResult (s : JSString)
| ResultType (transcript : JSString).

(** The state of the component and what it has done to the outside:
    the toasts shown, the documents of [userAnswers], the calls of the
    speech hook and the prompts sent to the chat session, oldest first.
    [aiResult] is [useState<AIResponse | null>(null)]: [JSNull] until a
    result is set, and whatever [setAiResult] was given afterwards. *)
Record Page := mkPage {
  userAnswer : JSString;
  isAiGenerating : bool;
  aiResult : AIResponse;
  open : bool;
  loading : bool;
  toasts : list Toast;
  userAnswers : list AnswerDoc;
  speech : list SpeechCall;
  prompts : list JSString
}.

Definition setUserAnswer (v : JSString) (p : Page) : Page :=
  mkPage v (isAiGenerating p) (aiResult p) (open p) (loading p) (toasts p)
    (userAnswers p) (speech p) (prompts p).
Definition setIsAiGenerating (v : bool) (p : Page) : Page :=
  mkPage (userAnswer p) v (aiResult p) (open p) (loading p) (toasts p)
    (userAnswers p) (speech p) (prompts p).
Definition setAiResult (v : AIResponse) (p : Page) : Page :=
  mkPage (userAnswer p) (isAiGenerating p) v (open p) (loading p) (toasts p)
    (userAnswers p) (speech p) (prompts p).
Definition setOpen (v : bool) (p : Page) : Page :=
  mkPage (userAnswer p) (isAiGenerating p) (aiResult p) v (loading p) (toasts p)
    (userAnswers p) (speech p) (prompts p).
Definition setLoading (v : bool) (p : Page) : Page :=
  mkPage (userAnswer p) (isAiGenerating p) (aiResult p) (open p) v (toasts p)
    (userAnswers p) (speech p) (prompts p).
Definition toast (t : Toast) (p : Page) : Page :=
  mkPage (userAnswer p) (isAiGenerating p) (aiResult p) (open p) (loading p)
    (toasts p ++ [t]) (userAnswers p) (speech p) (prompts p).
Definition stored (d : AnswerDoc) (p : Page) : Page :=
  mkPage (userAnswer p) (isAiGenerating p) (aiResult p) (open p) (loading p)
    (toasts p) (userAnswers p ++ [d]) (speech p) (prompts p).
Definition called (c : SpeechCall) (p : Page) : Page :=
  mkPage (userAnswer p) (isAiGenerating p) (aiResult p) (open p) (loading p)
    (toasts p) (userAnswers p) (speech p ++ [c]) (prompts p).
Definition sent (prompt : JSString) (p : Page) : Page :=
  mkPage (userAnswer p) (isAiGenerating p) (aiResult p) (open p) (loading p)
    (toasts p) (userAnswers p) (speech p) (prompts p ++ [prompt]).

Definition option_JSString_eqb (a b : option JSString) : bool :=
  match a, b with
  | Some x, Some y => JSString_eqb x y
  | None, None => true
  | _, _ => false
  end.

Section Component.

(** The services: [chatSession.sendMessage(prompt)] resolves with the text
    of the response or rejects; [JSON.parse] returns the value that the
    text denotes or throws; [getDocs] and [addDoc] may reject, and whether
    the store accepts a document is the store's decision. *)
Variable sendMessage : JSString -> option JSString.
Variable JSON_parse : JSString -> option AIResponse.
Variable getDocs_rejects : bool.
Variable addDoc_rejects : bool.

(** What the render that created the handlers saw: the props, the route
    and the signed-in user, and the hook's [isRecording]. *)
Variable props_question : Question.
Variable userId : option JSString.
Variable interviewId : option JSString.

Definition quote : JSString := [34%N].
Definition newline : JSString := [10%N].

(** The template literal of [generateResult]. *)
Definition prompt_of (qst qstAns userAns : JSString) : JSString :=
  newline ++
  lit "Question: " ++ quote ++ qst ++ quote ++ newline ++
  lit "User Answer: " ++ quote ++ userAns ++ quote ++ newline ++
  lit "Correct Answer: " ++ quote ++ qstAns ++ quote ++ newline ++
  lit "Give rating (1-10) and feedback." ++ newline ++
  lit "Return JSON with fields " ++ quote ++ lit "ratings" ++ quote ++
  lit " and " ++ quote ++ lit "feedback" ++ quote ++ lit "." ++ newline.

Definition fallback : AIResponse :=
  mkAIResponse 0 (lit "Unable to generate feedback").

(** [[
    const generateResult = async (qst, qstAns, userAns) => {
      setIsAiGenerating(true);
      const prompt = `...`;
      try {
        const aiResult = await chatSession.sendMessage(prompt);
        const parsedResult: AIResponse = cleanJsonResponse(
          aiResult.response.text()
        );
        return parsedResult;
      } catch (error) {
        toast("Error", { description: "Error generating feedback." });
        return { ratings: 0, feedback: "Unable to generate feedback" };
      } finally {
        setIsAiGenerating(false);
      }
    };
    ]] *)
Definition generateResult (qst qstAns userAns : JSString) (p : Page)
    : AIResponse * Page :=
  let p := setIsAiGenerating true p in
  let prompt := prompt_of qst qstAns userAns in
  let p := sent prompt p in
  let failed p :=
    (fallback, toast (mkToast ToastPlain "Error" "Error generating feedback.") p) in
  let '(result, p) :=
    match sendMessage prompt with
    | Some text =>
      match cleanJsonResponse AIResponse JSON_parse text with
      | Returns parsedResult => (parsedResult, p)
      | Throws _ => failed p
      end
    | None => failed p
    end in
  (result, setIsAiGenerating false p).

(** [[
    const recordUserAnswer = async () => {
      if (isRecording) {
        stopSpeechToText();
        if (userAnswer?.length < 30) {
          toast.error("Error", {
            description: "Your answer should be more than 30 characters",
          });
          return;
        }
        const aiResult = await generateResult(
          question.question, question.answer, userAnswer);
        setAiResult(aiResult);
      } else {
        startSpeechToText();
      }
    };
    ]] *)
Definition recordUserAnswer (isRecording : bool) (p : Page) : Page :=
  if isRecording then
    let captured := userAnswer p in
    let p := called stopSpeechToText p in
    if (List.length captured <? 30)%nat then
      toast (mkToast ToastError "Error"
               "Your answer should be more than 30 characters") p
    else
      let '(result, p) :=
        generateResult (question props_question) (answer props_question)
          captured p in
      setAiResult result p
  else called startSpeechToText p.

(** [[
    const recordNewAnswer = () => {
      setUserAnswer("");
      stopSpeechToText();
      startSpeechToText();
    };
    ]] *)
Definition recordNewAnswer (p : Page) : Page :=
  called startSpeechToText (called stopSpeechToText (setUserAnswer [] p)).

(** The documents that the query of [saveUserAnswer] selects:
    [where("userId", "==", userId), where("question", "==", question.question)]. *)
Definition userAnswerQuery (docs : list AnswerDoc) : list AnswerDoc :=
  filter (fun d => option_JSString_eqb (doc_userId d) userId &&
                   JSString_eqb (doc_question d) (question props_question))
    docs.

(** [[
    const saveUserAnswer = async () => {
      setLoading(true);
      if (!aiResult) return;
      try {
        const userAnswerQuery = query(collection(db, "userAnswers"), ...);
        const querySnap = await getDocs(userAnswerQuery);
        if (!querySnap.empty) {
          toast.info("Already Answered", {
            description: "You have already answered this question",
          });
          return;
        }
        await addDoc(collection(db, "userAnswers"), { ... });
        toast("Saved", { description: "Your answer has been saved." });
        setUserAnswer("");
        stopSpeechToText();
      } catch (error) {
        toast("Error", { description: "Error saving answer." });
      } finally {
        setLoading(false);
        setOpen(false);
      }
    };
    ]] *)
Definition saveUserAnswer (p : Page) : Page :=
  let captured := userAnswer p in
  let p1 := setLoading true p in
  let result := aiResult p in
  if negb (truthy result) then p1
  else
    let failed q :=
      toast (mkToast ToastPlain "Error" "Error saving answer.") q in
    let tried :=
      if getDocs_rejects then failed p1
      else
        match userAnswerQuery (userAnswers p1) with
        | _ :: _ =>
          toast (mkToast ToastInfo "Already Answered"
                   "You have already answered this question") p1
        | [] =>
          if addDoc_rejects then failed p1
          else
            let p2 :=
              stored (mkAnswerDoc interviewId (question props_question)
                        (answer props_question) captured (feedback result)
                        (ratings result) userId) p1 in
            let p3 := toast (mkToast ToastPlain "Saved"
                               "Your answer has been saved.") p2 in
            called stopSpeechToText (setUserAnswer [] p3)
        end in
    setOpen false (setLoading false tried).

(** The effect on [results]:
    [[
    const combineTranscripts = results
      .filter((result): result is ResultType => typeof result !== "string")
      .map((result) => result.transcript)
      .join(" ");
    setUserAnswer(combineTranscripts);
    ]] *)
Definition combineTranscripts (results : list SpeechResult) : JSString :=
  join (lit " ")
    (flat_map (fun r => match r with
                        | LegacyResult _ => []
                        | ResultType transcript => [transcript]
                        end) results).

(** The "Save Result" button.  The call site writes
    [disbaled={!aiResult}]: [TooltipButton] has no parameter of that name,
    so [disabled] and [loading] keep their defaults. *)
Definition saveButton (p : Page) : RenderedButton (Page -> Page) :=
  TooltipButton "Save Result" (Some (setOpen true)) false false.

End Component.

End RecordAnswer.

(** ** [src/components/question-section.tsx] *)

Module QuestionSection.

Import RecordAnswer.

(** The state of the component, with the calls of
    [window.speechSynthesis.cancel()] counted and the calls of [navigate]
    kept, oldest first, each with the answers it carries. *)
Record State := mkState {
  isPlaying : bool;
  activeIndex : nat;
  showQuestion : bool;
  completedIndex : Z;
  allAnswers : list Question;
  cancels : nat;
  navigations : list (string * list Question)
}.

(** [useState(false)], [useState(0)], [useState(false)], [useState(-1)],
    [useState([])] *)
Definition initialState : State := mkState false 0 false (-1) [] 0 [].

(** [[
    const handleNextQuestion = (answer: string) => {
      window.speechSynthesis.cancel();
      setShowQuestion(false);
      const currentAnswer = {
        question: questions[activeIndex].question,
        answer,
      };
      setAllAnswers((prev) => [...prev, currentAnswer]);
      setCompletedIndex(activeIndex);
      if (activeIndex < questions.length - 1) {
        setActiveIndex((prev) => prev + 1);
        setShowQuestion(false);
      } else {
        navigate("/generate/feedback/demo", {
          state: { answers: [...allAnswers, currentAnswer] },
        });
      }
    };
    ]]
    Reading [.question] of [questions[activeIndex]] throws a [TypeError]
    when the index is outside the list.  The handler is the one of the
    latest render, so the [allAnswers] and [activeIndex] it captured are
    those of the state. *)
Definition handleNextQuestion (questions : list Question) (answer : JSString)
    (s : State) : Completion unit * State :=
  let s1 :=
    mkState (isPlaying s) (activeIndex s) false (completedIndex s)
      (allAnswers s) (S (cancels s)) (navigations s) in
  match nth_error questions (activeIndex s) with
  | None => (Throw, s1)
  | Some q =>
    let currentAnswer := mkQuestion (question q) answer in
    let answered := allAnswers s1 ++ [currentAnswer] in
    let completed := Z.of_nat (activeIndex s) in
    if Z.of_nat (activeIndex s) <? Z.of_nat (List.length questions) - 1 then
      (Normal tt,
       mkState (isPlaying s1) (activeIndex s1 + 1) false completed answered
         (cancels s1) (navigations s1))
    else
      (Normal tt,
       mkState (isPlaying s1) (activeIndex s1) (showQuestion s1) completed
         answered (cancels s1)
         (navigations s1 ++
          [("/generate/feedback/demo", allAnswers s ++ [currentAnswer])]))
  end.

(** The tab of question [i] is rendered unless [i > completedIndex + 1]. *)
Definition tabShown (s : State) (i : nat) : bool :=
  negb (completedIndex s + 1 <? Z.of_nat i).

(** The click on the tab of question [i]:
    [window.speechSynthesis.cancel(); setActiveIndex(i); setShowQuestion(false);] *)
Definition selectTab (i : nat) (s : State) : State :=
  mkState (isPlaying s) i false (completedIndex s) (allAnswers s)
    (S (cancels s)) (navigations s).

(** The answers submitted one after the other, each to the handler of the
    render that follows the previous one; an exception ends the sequence. *)
Fixpoint submitAll (questions : list Question) (answers : list JSString)
    (s : State) : Completion unit * State :=
  match answers with
  | [] => (Normal tt, s)
  | a :: rest =>
    match handleNextQuestion questions a s with
    | (Normal _, s') => submitAll questions rest s'
    | (Throw, s') => (Throw, s')
    end
  end.

(** Each question with the answer given to it. *)
Fixpoint paired (questions : list Question) (answers : list JSString)
    : list Question :=
  match questions, answers with
  | q :: qs, a :: rest => mkQuestion (question q) a :: paired qs rest
  | _, _ => []
  end.

End QuestionSection.

(** ** [src/components/form-mock-interview.tsx] *)

Module FormMockInterview.

Record FormData := mkFormData {
  position : JSString;
  description : JSString;
  experience : float;
  techStack : JSString
}.

(** A document of the [interviews] collection, with the questions as the
    parser returned them; the time stamps are filled in by the server. *)
Record Interview (Json : Type) := mkInterview {
  id : JSString;
  data : FormData;
  interview_userId : option JSString;
  questions : Json
}.
Arguments mkInterview {Json}.
Arguments id {Json}.
Arguments data {Json}.
Arguments interview_userId {Json}.
Arguments questions {Json}.

Inductive ToastKind := ToastPlain | ToastError | ToastSuccess.

(** The state of the form and what it has done to the outside. *)
Record Page (Json : Type) := mkPage {
  loading : bool;
  toasts : list (ToastKind * string);
  navigations : list string;
  prompts : list JSString;
  interviews : list (Interview Json)
}.
Arguments mkPage {Json}.
Arguments loading {Json}.
Arguments toasts {Json}.
Arguments navigations {Json}.
Arguments prompts {Json}.
Arguments interviews {Json}.

Section Component.

Variable Json : Type.

(** The services: the chat session, [JSON.parse], whether the write to the
    store is rejected, and the id the store gives a new document. *)
Variable sendMessage : JSString -> option JSString.
Variable JSON_parse : JSString -> option Json.
Variable write_rejects : bool.
Variable new_id : JSString.

(** What the render saw: the interview being edited, if any, and the
    signed-in user.  An empty [userId] passes for none, as [!userId] does. *)
Variable initialData : option (Interview Json).
Variable userId : option JSString.

Definition setLoading (v : bool) (p : Page Json) : Page Json :=
  mkPage v (toasts p) (navigations p) (prompts p) (interviews p).
Definition toast (k : ToastKind) (msg : string) (p : Page Json) : Page Json :=
  mkPage (loading p) (toasts p ++ [(k, msg)]) (navigations p) (prompts p)
    (interviews p).
Definition navigate (path : string) (p : Page Json) : Page Json :=
  mkPage (loading p) (toasts p) (navigations p ++ [path]) (prompts p)
    (interviews p).
Definition sent (prompt : JSString) (p : Page Json) : Page Json :=
  mkPage (loading p) (toasts p) (navigations p) (prompts p ++ [prompt])
    (interviews p).
Definition setInterviews (v : list (Interview Json)) (p : Page Json) : Page Json :=
  mkPage (loading p) (toasts p) (navigations p) (prompts p) v.

(** The template literal of [generateQuestions]; [experience] is printed
    by the service [show_number], JavaScript's conversion of a number to a
    string. *)
Variable show_number : float -> JSString.

Definition prompt_of (d : FormData) : JSString :=
  [10%N] ++
  lit "Generate 5 technical interview questions and answers." ++ [10; 10]%N ++
  lit "Return ONLY valid JSON array." ++ [10%N] ++
  lit "Format:" ++ [10%N] ++
  lit "[" ++ [10%N] ++
  lit " { " ++ [34%N] ++ lit "question" ++ [34%N] ++ lit ": " ++ [34%N] ++
  lit "..." ++ [34%N] ++ lit ", " ++ [34%N] ++ lit "answer" ++ [34%N] ++
  lit ": " ++ [34%N] ++ lit "..." ++ [34%N] ++ lit " }" ++ [10%N] ++
  lit "]" ++ [10; 10]%N ++
  lit "Position: " ++ position d ++ [10%N] ++
  lit "Description: " ++ description d ++ [10%N] ++
  lit "Experience: " ++ show_number (experience d) ++ lit " years" ++ [10%N] ++
  lit "Tech Stack: " ++ techStack d ++ [10%N].

(** [[
    const generateQuestions = async (data: FormData) => {
      const prompt = `...`;
      const result = await chatSession.sendMessage(prompt);
      return cleanAiResponse(result.response.text());
    };
    ]]
    [None] is a rejection or an exception. *)
Definition generateQuestions (d : FormData) (p : Page Json)
    : option Json * Page Json :=
  let p := sent (prompt_of d) p in
  match sendMessage (prompt_of d) with
  | Some text =>
    match cleanAiResponse Json JSON_parse text with
    | Returns questions => (Some questions, p)
    | Throws _ => (None, p)
    end
  | None => (None, p)
  end.

(** [updateDoc(doc(db, "interviews", id), { ...data, questions, updatedAt })]:
    the named fields of the document are replaced, the others kept.  The
    store rejects the update of a document that does not exist. *)
Definition updateDoc (target : JSString) (d : FormData) (qs : Json)
    (docs : list (Interview Json)) : list (Interview Json) :=
  map (fun i => if JSString_eqb (id i) target
                then mkInterview (id i) d (interview_userId i) qs
                else i) docs.

Definition isSignedIn : bool :=
  match userId with
  | Some (_ :: _) => true
  | _ => false
  end.

(** [[
    const onSubmit = async (data) => {
      if (!userId) {
        toast.error("Please login first");
        navigate("/sign-in");
        return;
      }
      try {
        setLoading(true);
        toast("Generating AI questions...");
        const questions = await generateQuestions(data);
        if (initialData) {
          await updateDoc(doc(db, "interviews", initialData.id), {...});
          toast.success("Interview updated");
        } else {
          await addDoc(collection(db, "interviews"), {...});
          toast.success("Interview created");
        }
        navigate("/generate");
      } catch (error) {
        console.error(error);
        toast.error("Something went wrong");
      } finally {
        setLoading(false);
      }
    };
    ]] *)
Definition onSubmit (d : FormData) (p : Page Json) : Page Json :=
  if negb isSignedIn then
    navigate "/sign-in" (toast ToastError "Please login first" p)
  else
    let p := setLoading true p in
    let p := toast ToastPlain "Generating AI questions..." p in
    let failed q := toast ToastError "Something went wrong" q in
    let tried :=
      match generateQuestions d p with
      | (None, p) => failed p
      | (Some qs, p) =>
        if write_rejects then failed p
        else
          match initialData with
          | Some i =>
            if existsb (fun j => JSString_eqb (id j) (id i)) (interviews p) then
              navigate "/generate"
                (toast ToastSuccess "Interview updated"
                   (setInterviews (updateDoc (id i) d qs (interviews p)) p))
            else failed p
          | None =>
            navigate "/generate"
              (toast ToastSuccess "Interview created"
                 (setInterviews
                    (interviews p ++ [mkInterview new_id d userId qs]) p))
          end
      end in
    setLoading false tried.

End Component.

End FormMockInterview.

(** What the two copies of the monitor share once the camera runs:
    everything but the stream that [unnamed/part_000] acquires itself and
    attaches to the video element. *)
Definition core (w : World) :=
  (warning w, camera w, lastWarningTime w,
   readyState (video w), videoWidth (video w), refAttached w,
   (hidden w, fullscreenElement w, listeners w, awaiting w, inflight w,
    ticks w, history w)).

Definition same_core (w1 w2 : World) : Prop := core w1 = core w2.

(** A statement that cannot tell two such worlds apart. *)
Definition respects {A} (m : JS A) : Prop :=
  forall w1 w2, same_core w1 w2 ->
    fst (m w1) = fst (m w2) /\ same_core (snd (m w1)) (snd (m w2)).

(** * Properties *)

(** Brings a world built from setters over a constructor back to a
    constructor. *)
Ltac norm :=
  unfold set_warning, set_camera, set_lastWarningTime, set_video,
    set_refAttached, set_hidden, set_fullscreenElement, set_listeners,
    set_liveStreams, set_awaiting, set_inflight, set_ticks, set_history;
  cbn [warning camera lastWarningTime video refAttached hidden
       fullscreenElement listeners liveStreams awaiting inflight ticks history].

(** ** The throttler *)

Section Throttler.

Variable clock : nat -> Z.

Lemma showWarning_run (msg : string) (w : World) :
  showWarning clock msg w =
  (Normal tt,
   if 3000 <? clock (ticks w) - lastWarningTime w
   then set_lastWarningTime (clock (ticks w)) (set_warning (Some msg) (noted msg w))
   else noted msg w).
Proof.
  unfold showWarning, bind, record, modify, Date_now, gets, setWarning, noted.
  cbn.
  destruct (3000 <? clock (ticks w) - lastWarningTime w); reflexivity.
Qed.

Lemma showWarning_accepts (msg : string) (w : World) :
  clock (ticks w) - lastWarningTime w > 3000 ->
  exec (showWarning clock msg) w =
  set_lastWarningTime (clock (ticks w)) (set_warning (Some msg) (noted msg w)).
Proof.
  intros H. unfold exec. rewrite showWarning_run.
  destruct (Z.ltb_spec 3000 (clock (ticks w) - lastWarningTime w)); [reflexivity | lia].
Qed.

Lemma showWarning_drops (msg : string) (w : World) :
  clock (ticks w) - lastWarningTime w <= 3000 ->
  exec (showWarning clock msg) w = noted msg w.
Proof.
  intros H. unfold exec. rewrite showWarning_run.
  destruct (Z.ltb_spec 3000 (clock (ticks w) - lastWarningTime w)); [lia | reflexivity].
Qed.

Lemma showWarning_completes (msg : string) (w : World) :
  completes (showWarning clock msg) w = true.
Proof. unfold completes. rewrite showWarning_run. reflexivity. Qed.

Lemma signals_noted (msg : string) (w : World) :
  signals (noted msg w) = signals w ++ [msg].
Proof. unfold signals, noted. cbn. rewrite flat_map_app. reflexivity. Qed.

Lemma signals_showWarning (msg : string) (w : World) :
  signals (exec (showWarning clock msg) w) = signals w ++ [msg].
Proof.
  unfold exec. rewrite showWarning_run.
  destruct (3000 <? clock (ticks w) - lastWarningTime w); cbn;
    rewrite <- signals_noted; reflexivity.
Qed.

Lemma ticks_showWarning (msg : string) (w : World) :
  ticks (exec (showWarning clock msg) w) = S (ticks w).
Proof.
  unfold exec. rewrite showWarning_run.
  destruct (3000 <? clock (ticks w) - lastWarningTime w); reflexivity.
Qed.

(** C5. A call of the throttler with a signal whose time is more than
    3000ms after the last acceptance overwrites the displayed message with
    the signal's message and sets the time of the last acceptance to now;
    any other call leaves the message and that time as they were.  Nothing
    else is kept: besides the clock read and the history entry the world is
    untouched, so a dropped signal is neither queued nor counted. *)
Theorem C5_showWarning_accept_or_drop (msg : string) (w : World) :
  let now := clock (ticks w) in
  let w' := exec (showWarning clock msg) w in
  (now - lastWarningTime w > 3000 ->
     warning w' = Some msg /\ lastWarningTime w' = now /\
     w' = set_lastWarningTime now (set_warning (Some msg) (noted msg w))) /\
  (~ now - lastWarningTime w > 3000 ->
     warning w' = warning w /\ lastWarningTime w' = lastWarningTime w /\
     w' = noted msg w) /\
  completes (showWarning clock msg) w = true.
Proof.
  cbv zeta. split; [| split].
  - intros H. rewrite (showWarning_accepts msg w H). auto.
  - intros H. rewrite (showWarning_drops msg w) by lia. auto.
  - apply showWarning_completes.
Qed.

End Throttler.

(** ** The classifier *)

Section Classifier.

Variable clock : nat -> Z.

Lemma onResults_empty (w : World) :
  onResults clock (mkResults (Some [])) w = showWarning clock msg_NoFace w.
Proof. reflexivity. Qed.

Lemma onResults_undefined (w : World) :
  onResults clock (mkResults None) w = showWarning clock msg_NoFace w.
Proof. reflexivity. Qed.

Lemma onResults_many (a b : Detection) (rest : list Detection) (w : World) :
  onResults clock (mkResults (Some (a :: b :: rest))) w =
  showWarning clock msg_MultipleFaces w.
Proof. reflexivity. Qed.

(** The two position checks of the callback, as it writes them. *)
Lemma onResults_single (face : Detection) (w : World) :
  onResults clock (mkResults (Some [face])) w =
  (when ((xCenter face <? 0.3)%float || (0.7 <? xCenter face)%float
         || (yCenter face <? 0.3)%float)
     (showWarning clock msg_OffScreen) ;;
   when (0.75 <? yCenter face)%float (showWarning clock msg_LookingDown)) w.
Proof. reflexivity. Qed.

(** C6. An empty detection list yields NoFace; a list of more than one
    detection yields MultipleFaces wherever the faces are; a single
    detection at (0.5, 0.5) yields no signal and leaves the world as it
    was; one at (0.2, 0.5) yields OffScreen; one at (0.5, 0.8) yields
    LookingDown.  "Yields" is: that message, and no other, is passed to
    [showWarning]. *)
Theorem C6_classifier_examples (w : World) :
  let out r := exec (onResults clock r) w in
  signals (out (mkResults (Some []))) = signals w ++ [message NoFace] /\
  (forall a b rest,
     signals (out (mkResults (Some (a :: b :: rest)))) =
     signals w ++ [message MultipleFaces]) /\
  out (mkResults (Some [mkDetection 0.5 0.5])) = w /\
  signals (out (mkResults (Some [mkDetection 0.2 0.5]))) =
    signals w ++ [message OffScreen] /\
  signals (out (mkResults (Some [mkDetection 0.5 0.8]))) =
    signals w ++ [message LookingDown].
Proof.
  cbv zeta. cbn [message]. split; [| split; [| split; [| split]]].
  - unfold exec. rewrite onResults_empty. apply signals_showWarning.
  - intros a b rest. unfold exec. rewrite onResults_many. apply signals_showWarning.
  - unfold exec. rewrite onResults_single. reflexivity.
  - rewrite <- (signals_showWarning clock msg_OffScreen w).
    unfold exec. rewrite onResults_single.
    change (0.2 <? 0.3)%float with true. change (0.75 <? 0.5)%float with false.
    cbn -[showWarning]. unfold bind.
    destruct (showWarning clock msg_OffScreen w) as [[[]|] w']; reflexivity.
  - rewrite <- (signals_showWarning clock msg_LookingDown w).
    unfold exec. rewrite onResults_single. reflexivity.
Qed.

Lemma exec_showWarning_then (msg : string) (k : JS unit) (w : World) :
  exec (showWarning clock msg ;; k) w = exec k (exec (showWarning clock msg) w).
Proof. unfold exec, bind. rewrite showWarning_run. reflexivity. Qed.

Lemma onResults_single_both (face : Detection) (w : World) :
  ((xCenter face <? 0.3)%float || (0.7 <? xCenter face)%float
   || (yCenter face <? 0.3)%float) = true ->
  (0.75 <? yCenter face)%float = true ->
  onResults clock (mkResults (Some [face])) w =
  (showWarning clock msg_OffScreen ;; showWarning clock msg_LookingDown) w.
Proof.
  intros Hoff Hdown. rewrite onResults_single, Hoff, Hdown. reflexivity.
Qed.

(** C1, as the code has it.  For a frame with exactly one detection the
    OffScreen check and the LookingDown check are evaluated in that fixed
    order, and they are independent: when both conditions hold, two signals
    are passed to the throttler, OffScreen first and LookingDown second.
    The masking is the throttler's: when the OffScreen signal is accepted
    and the second clock read is at most 3000ms after the first, LookingDown
    is dropped and the warning state is OffScreen's; and when both calls
    read the same clock value the warning state ends exactly as if
    OffScreen alone had been sent. *)
Theorem C1_offscreen_then_lookingdown (face : Detection) (w : World) :
  ((xCenter face <? 0.3)%float || (0.7 <? xCenter face)%float
   || (yCenter face <? 0.3)%float) = true ->
  (0.75 <? yCenter face)%float = true ->
  let t1 := clock (ticks w) in
  let t2 := clock (S (ticks w)) in
  let w' := exec (onResults clock (mkResults (Some [face]))) w in
  signals w' = signals w ++ [message OffScreen; message LookingDown] /\
  (t1 - lastWarningTime w > 3000 -> t2 - t1 <= 3000 ->
     WarningState w' = (Some (message OffScreen), t1)) /\
  (t2 = t1 ->
     WarningState w' = WarningState (exec (showWarning clock (message OffScreen)) w)).
Proof.
  intros Hoff Hdown. cbv zeta. cbn [message].
  unfold exec at 1 2 3. rewrite (onResults_single_both face w Hoff Hdown).
  fold (exec (showWarning clock msg_OffScreen ;; showWarning clock msg_LookingDown) w).
  rewrite exec_showWarning_then.
  assert (Hmask : clock (ticks w) - lastWarningTime w > 3000 ->
                  clock (S (ticks w)) - clock (ticks w) <= 3000 ->
                  WarningState
                    (exec (showWarning clock msg_LookingDown)
                       (exec (showWarning clock msg_OffScreen) w)) =
                  (Some msg_OffScreen, clock (ticks w))).
  { intros Hacc Hnear.
    rewrite (showWarning_accepts clock msg_OffScreen w Hacc).
    rewrite showWarning_drops by (cbn; lia). reflexivity. }
  split; [| split].
  - rewrite !signals_showWarning, <- app_assoc. reflexivity.
  - exact Hmask.
  - intros Heq.
    destruct (Z_gt_le_dec (clock (ticks w) - lastWarningTime w) 3000) as [Hacc | Hdrop].
    + rewrite Hmask by lia.
      rewrite (showWarning_accepts clock msg_OffScreen w Hacc). reflexivity.
    + rewrite (showWarning_drops clock msg_OffScreen w Hdrop).
      rewrite showWarning_drops by (cbn; lia). reflexivity.
Qed.

End Classifier.

(** The theorem above at the detection (0.2, 0.8) of the specification, on
    the fresh page with the clock at 5000. *)
Lemma C1_offscreen_then_lookingdown_witness :
  let w' := exec (onResults (frozen 5000)
                    (mkResults (Some [mkDetection 0.2 0.8]))) initial in
  signals w' = [msg_OffScreen; msg_LookingDown] /\
  WarningState w' = (Some msg_OffScreen, 5000).
Proof.
  cbv zeta.
  destruct (C1_offscreen_then_lookingdown (frozen 5000)
              (mkDetection 0.2 0.8) initial eq_refl eq_refl) as (Hs & Hm & _).
  split.
  - exact Hs.
  - apply Hm; unfold frozen; cbn; lia.
Defined.

(** C1 as stated fails: at (0.2, 0.8) the callback produces two signals,
    not exactly one. *)
Lemma C1_two_signals_at_02_08 :
  let w' := exec (onResults (frozen 5000)
                    (mkResults (Some [mkDetection 0.2 0.8]))) initial in
  signals w' = [message OffScreen; message LookingDown] /\
  List.length (signals w') <> 1%nat.
Proof. cbv zeta. vm_compute. split; [reflexivity | discriminate]. Qed.

(** ** Signals inside one throttle window *)

Section Window.

Variable clock : nat -> Z.

Lemma exec_deliver_cons (m : string) (rest : list string) (w : World) :
  exec (deliver clock (m :: rest)) w =
  exec (deliver clock rest) (exec (showWarning clock m) w).
Proof. apply exec_showWarning_then. Qed.

Lemma ticks_deliver (msgs : list string) :
  forall w, ticks (exec (deliver clock msgs) w) = (ticks w + List.length msgs)%nat.
Proof.
  induction msgs as [| m rest IH]; intros w.
  - cbn. lia.
  - rewrite exec_deliver_cons, IH, ticks_showWarning. cbn. lia.
Qed.

(** Signals that all arrive no later than 3000ms after the last acceptance
    leave the warning state alone. *)
Lemma deliver_all_dropped (msgs : list string) :
  forall w,
    (forall i, (i < List.length msgs)%nat ->
       clock (ticks w + i)%nat - lastWarningTime w <= 3000) ->
    WarningState (exec (deliver clock msgs) w) = WarningState w.
Proof.
  induction msgs as [| m rest IH]; intros w H.
  - reflexivity.
  - rewrite exec_deliver_cons.
    assert (H0 : clock (ticks w) - lastWarningTime w <= 3000).
    { specialize (H 0%nat). rewrite Nat.add_0_r in H. apply H. cbn. lia. }
    rewrite (showWarning_drops clock m w H0).
    rewrite IH; [reflexivity |].
    intros i Hi. cbn.
    specialize (H (S i)). rewrite Nat.add_succ_r in H. apply H. cbn. lia.
Qed.

Lemma deliver_window (msgs : list string) :
  forall w,
    (forall i j, (i <= j < List.length msgs)%nat ->
       clock (ticks w + j)%nat - clock (ticks w + i)%nat <= 3000) ->
    WarningState (exec (deliver clock msgs) w) =
    match first_accepted clock (lastWarningTime w) (ticks w) msgs with
    | Some (m, t) => (Some m, t)
    | None => WarningState w
    end.
Proof.
  induction msgs as [| m rest IH]; intros w H.
  - reflexivity.
  - rewrite exec_deliver_cons. cbn [first_accepted].
    destruct (Z.ltb_spec 3000 (clock (ticks w) - lastWarningTime w)) as [Hacc | Hdrop].
    + rewrite (showWarning_accepts clock m w) by lia.
      rewrite deliver_all_dropped; [reflexivity |].
      intros i Hi. cbn.
      specialize (H 0%nat (S i)).
      rewrite Nat.add_0_r, Nat.add_succ_r in H. apply H. cbn. lia.
    + rewrite (showWarning_drops clock m w Hdrop).
      rewrite IH; [reflexivity |].
      intros i j Hij. cbn.
      specialize (H (S i) (S j)). rewrite !Nat.add_succ_r in H. apply H. cbn. lia.
Qed.

(** C2, as the code has it.  For every sequence of signals that reach the
    throttler within one window (no clock read of the sequence is more than
    3000ms after an earlier one), the warning state after the sequence is
    that of the first accepted signal of the sequence, never a later one's,
    and is left as it was when none is accepted.  A further signal is
    accepted when strictly more than 3000ms have passed since the last
    acceptance, and dropped when 3000ms or less have passed. *)
Theorem C2_first_accepted_wins (msgs : list string) (w : World) :
  (forall i j, (i <= j < List.length msgs)%nat ->
     clock (ticks w + j)%nat - clock (ticks w + i)%nat <= 3000) ->
  let w' := exec (deliver clock msgs) w in
  WarningState w' =
    match first_accepted clock (lastWarningTime w) (ticks w) msgs with
    | Some (m, t) => (Some m, t)
    | None => WarningState w
    end /\
  forall later : string,
    let w'' := exec (showWarning clock later) w' in
    (clock (ticks w') - lastWarningTime w' > 3000 ->
       WarningState w'' = (Some later, clock (ticks w'))) /\
    (clock (ticks w') - lastWarningTime w' <= 3000 ->
       WarningState w'' = WarningState w').
Proof.
  intros H. cbv zeta. split.
  - apply deliver_window, H.
  - intros later. split; intros Ht.
    + rewrite showWarning_accepts by exact Ht. reflexivity.
    + rewrite showWarning_drops by exact Ht. reflexivity.
Qed.

End Window.

(** Three signals at 5000, 6000 and 8000 on a fresh page: the first is
    displayed, and a fourth at 8001 replaces it. *)
Lemma C2_first_accepted_wins_witness :
  let c := clock_of [5000; 6000; 8000; 8001] in
  let w' := exec (deliver c [msg_TabSwitch; msg_WindowBlur; msg_NoFace]) initial in
  WarningState w' = (Some msg_TabSwitch, 5000) /\
  WarningState (exec (showWarning c msg_DeviceChange) w') =
    (Some msg_DeviceChange, 8001).
Proof.
  cbv zeta.
  assert (Hwin : forall i j : nat,
    (i <= j < List.length [msg_TabSwitch; msg_WindowBlur; msg_NoFace])%nat ->
    clock_of [5000; 6000; 8000; 8001] (ticks initial + j)%nat -
    clock_of [5000; 6000; 8000; 8001] (ticks initial + i)%nat <= 3000).
  { intros i j Hij. cbn in Hij.
    destruct i as [| [| [| i]]]; destruct j as [| [| [| j]]]; cbn; lia. }
  destruct (C2_first_accepted_wins (clock_of [5000; 6000; 8000; 8001])
              [msg_TabSwitch; msg_WindowBlur; msg_NoFace] initial Hwin)
    as [Hfirst Hlater].
  split.
  - exact Hfirst.
  - destruct (Hlater msg_DeviceChange) as [Hacc _].
    apply Hacc. vm_compute. reflexivity.
Defined.

(** C2 as stated fails at the boundary: a signal that arrives exactly
    3000ms after the last acceptance is dropped, not accepted. *)
Lemma C2_dropped_at_exactly_3000 :
  let c := clock_of [5000; 8000] in
  let w1 := exec (showWarning c msg_TabSwitch) initial in
  let w2 := exec (showWarning c msg_WindowBlur) w1 in
  WarningState w1 = (Some msg_TabSwitch, 5000) /\
  c (ticks w1) - lastWarningTime w1 >= 3000 /\
  WarningState w2 = (Some msg_TabSwitch, 5000).
Proof. cbv zeta. vm_compute. repeat split. discriminate. Qed.

(** ** The frame sampler *)

Section Sampler.

Variable clock : nat -> Z.

Lemma sends_noted (msg : string) (w : World) : sends (noted msg w) = sends w.
Proof.
  unfold sends, noted. cbn. rewrite filter_app, length_app. cbn. lia.
Qed.




End Sampler.


(** ** Teardown *)

Section Teardown.

Variable clock : nat -> Z.
Variable throws : ReleaseCall -> bool.

Lemma removeEventListener_run (ty : EventType) (w : World) :
  removeEventListener throws ty w =
  if throws (RemoveListener ty)
  then (Throw, set_history (history w ++ [CallRelease (RemoveListener ty)]) w)
  else (Normal tt,
        set_listeners (filter (fun x => negb (EventType_eqb ty x)) (listeners w))
          (set_history (history w ++ [CallRelease (RemoveListener ty)]) w)).
Proof.
  unfold removeEventListener, bind, record, modify, throw.
  destruct (throws (RemoveListener ty)); reflexivity.
Qed.

Lemma Camera_stop_run (w : World) :
  Camera_stop throws w =
  if throws CameraStop
  then (Throw, set_history (history w ++ [CallRelease CameraStop]) w)
  else (Normal tt,
        mkWorld (warning w) (Some (mkCamera false)) (lastWarningTime w)
          (video w) (refAttached w) (hidden w) (fullscreenElement w)
          (listeners w) (liveStreams w) (awaiting w) (inflight w) (ticks w)
          (history w ++ [CallRelease CameraStop])).
Proof.
  unfold Camera_stop, bind, record, modify, throw.
  destruct (throws CameraStop); destruct w; reflexivity.
Qed.

Lemma bind_removeEventListener (ty : EventType) (k : unit -> JS unit) (w : World) :
  bind (removeEventListener throws ty) k w =
  if throws (RemoveListener ty)
  then (Throw, set_history (history w ++ [CallRelease (RemoveListener ty)]) w)
  else k tt (set_listeners (filter (fun x => negb (EventType_eqb ty x)) (listeners w))
            (set_history (history w ++ [CallRelease (RemoveListener ty)]) w)).
Proof.
  unfold bind. rewrite removeEventListener_run.
  destruct (throws (RemoveListener ty)); reflexivity.
Qed.

Lemma cleanup_as_plan (w : World) :
  cleanup throws w = release_all throws (release_plan w) w.
Proof.
  destruct w as [wa cam lt vid ra hid fs ls lv aw inf tk hist].
  unfold cleanup, release_plan.
  cbn [app release_all release camera].
  rewrite !(bind_removeEventListener visibilitychange). norm.
  destruct (throws (RemoveListener visibilitychange)); [reflexivity |].
  rewrite !(bind_removeEventListener blur). norm.
  destruct (throws (RemoveListener blur)); [reflexivity |].
  rewrite !(bind_removeEventListener fullscreenchange). norm.
  destruct (throws (RemoveListener fullscreenchange)); [reflexivity |].
  rewrite !(bind_removeEventListener devicechange). norm.
  destruct (throws (RemoveListener devicechange)); [reflexivity |].
  unfold bind at 1. unfold gets at 1. cbn [camera].
  destruct cam; cbn [app release_all release].
  - unfold bind, ret. destruct (Camera_stop throws _) as [[[] |] w']; reflexivity.
  - reflexivity.
Qed.

Lemma release_run (c : ReleaseCall) (w : World) :
  exists w',
    release throws c w = (if throws c then Throw else Normal tt, w') /\
    releases w' = releases w ++ [c].
Proof.
  destruct w as [wa cam lt vid ra hid fs ls lv aw inf tk hist].
  destruct c as [ty |]; cbn [release].
  - rewrite removeEventListener_run.
    destruct (throws (RemoveListener ty)); eexists; (split; [reflexivity |]);
      unfold releases; cbn; apply flat_map_app.
  - rewrite Camera_stop_run.
    destruct (throws CameraStop); eexists; (split; [reflexivity |]);
      unfold releases; cbn; apply flat_map_app.
Qed.

Lemma release_all_run (plan : list ReleaseCall) :
  forall w,
    releases (exec (release_all throws plan) w) =
      releases w ++ attempted throws plan /\
    completes (release_all throws plan) w =
      forallb (fun c => negb (throws c)) plan.
Proof.
  induction plan as [| c rest IH]; intros w.
  - cbn. rewrite app_nil_r. auto.
  - destruct (release_run c w) as (w' & Hrun & Hrel).
    unfold exec, completes. cbn [release_all attempted forallb]. unfold bind.
    rewrite Hrun.
    destruct (throws c); cbn [fst snd negb andb].
    + auto.
    + destruct (IH w') as [IHr IHc]. unfold exec, completes in IHr, IHc.
      rewrite IHr, IHc, Hrel, <- app_assoc. auto.
Qed.

Lemma all_filtered (ls : list EventType) :
  filter (fun x => negb (EventType_eqb devicechange x))
    (filter (fun x => negb (EventType_eqb fullscreenchange x))
      (filter (fun x => negb (EventType_eqb blur x))
        (filter (fun x => negb (EventType_eqb visibilitychange x)) ls))) = [].
Proof.
  induction ls as [| [] ls IH]; cbn; auto.
Qed.

Lemma cleanup_all_released (w : World) :
  (forall c, In c (release_plan w) -> throws c = false) ->
  listeners (exec (cleanup throws) w) = [] /\
  (camera w <> None -> camera (exec (cleanup throws) w) = Some (mkCamera false)) /\
  WarningState (exec (cleanup throws) w) = WarningState w /\
  inflight (exec (cleanup throws) w) = inflight w /\
  ticks (exec (cleanup throws) w) = ticks w /\
  refAttached (exec (cleanup throws) w) = refAttached w.
Proof.
  intros Hnone.
  assert (H1 : throws (RemoveListener visibilitychange) = false)
    by (apply Hnone; unfold release_plan; cbn; auto).
  assert (H2 : throws (RemoveListener blur) = false)
    by (apply Hnone; unfold release_plan; cbn; auto).
  assert (H3 : throws (RemoveListener fullscreenchange) = false)
    by (apply Hnone; unfold release_plan; cbn; auto).
  assert (H4 : throws (RemoveListener devicechange) = false)
    by (apply Hnone; unfold release_plan; cbn; auto 6).
  assert (H5 : camera w <> None -> throws CameraStop = false).
  { intros Hcam. apply Hnone. unfold release_plan.
    destruct (camera w); [cbn; auto 8 | congruence]. }
  destruct w as [wa cam lt vid ra hid fs ls lv aw inf tk hist].
  unfold exec, cleanup.
  rewrite (bind_removeEventListener visibilitychange), H1. norm.
  rewrite (bind_removeEventListener blur), H2. norm.
  rewrite (bind_removeEventListener fullscreenchange), H3. norm.
  rewrite (bind_removeEventListener devicechange), H4. norm.
  unfold bind, gets. cbn [camera] in *.
  rewrite all_filtered.
  destruct cam as [c |].
  - rewrite Camera_stop_run, H5 by discriminate.
    unfold WarningState. cbn. repeat split.
  - unfold WarningState. cbn. repeat split. congruence.
Qed.

(** C4, as the code has it.  The cleanup makes its release calls one after
    the other, the four listener removals and then the camera stop, with
    nothing that isolates a failure: the calls made are those of the plan
    up to and including the first that throws, and the cleanup completes
    normally exactly when none throws.  When none throws, every listener is
    unregistered by exactly one call, no listener stays registered and the
    camera, when there is one, is stopped.  When the first removal throws,
    no listener is unregistered and the camera is not stopped. *)
Theorem C4_cleanup_stops_at_first_throw (w : World) :
  let w' := exec (cleanup throws) w in
  releases w' = releases w ++ attempted throws (release_plan w) /\
  completes (cleanup throws) w =
    forallb (fun c => negb (throws c)) (release_plan w) /\
  ((forall c, In c (release_plan w) -> throws c = false) ->
     releases w' = releases w ++ release_plan w /\
     NoDup (release_plan w) /\
     listeners w' = [] /\
     (camera w <> None -> camera w' = Some (mkCamera false))) /\
  (throws (RemoveListener visibilitychange) = true ->
     listeners w' = listeners w /\ camera w' = camera w /\
     liveStreams w' = liveStreams w).
Proof.
  cbv zeta.
  destruct (release_all_run (release_plan w) w) as [Hrel Hcomp].
  unfold exec, completes in *. rewrite cleanup_as_plan.
  split; [exact Hrel | split; [exact Hcomp | split]].
  - intros Hnone. rewrite <- cleanup_as_plan.
    destruct (cleanup_all_released w Hnone) as (Hls & Hcam & _).
    unfold exec in Hls, Hcam.
    split; [| split; [| split; [exact Hls | exact Hcam]]].
    + rewrite cleanup_as_plan, Hrel. f_equal.
      clear - Hnone. induction (release_plan w) as [| c rest IH]; [reflexivity |].
      cbn. rewrite (Hnone c) by (left; reflexivity).
      f_equal. apply IH. intros c' Hin. apply Hnone. right. exact Hin.
    + unfold release_plan.
      destruct (camera w); repeat constructor; cbn; intuition discriminate.
  - intros Hthrow. rewrite <- cleanup_as_plan.
    unfold cleanup. rewrite bind_removeEventListener, Hthrow.
    repeat split.
Qed.

End Teardown.

(** C4 as stated fails: when the first removal throws, the three other
    listeners stay registered and the running camera is not stopped; the
    only release call made is the one that threw. *)
Lemma C4_first_throw_leaks_the_rest :
  let c := frozen 5000 in
  let w := run c first_removal_throws [EvMount Inline; EvStarted] initial in
  let w' := exec (step c first_removal_throws EvUnmount) w in
  listeners w = [visibilitychange; blur; fullscreenchange; devicechange] /\
  camera w = Some (mkCamera true) /\
  completes (step c first_removal_throws EvUnmount) w = false /\
  releases w' = [RemoveListener visibilitychange] /\
  listeners w' = [visibilitychange; blur; fullscreenchange; devicechange] /\
  camera w' = Some (mkCamera true).
Proof. cbv zeta. vm_compute. repeat split. Qed.

(** ** After the teardown *)

Section AfterTeardown.

Variable clock : nat -> Z.
Variable throws : ReleaseCall -> bool.

Lemma cleanup_completes_none (w : World) :
  completes (cleanup throws) w = true ->
  forall c, In c (release_plan w) -> throws c = false.
Proof.
  intros Hc c Hin.
  destruct (release_all_run throws (release_plan w) w) as [_ Hcomp].
  unfold completes in *. rewrite cleanup_as_plan, Hcomp in Hc.
  rewrite forallb_forall in Hc. specialize (Hc c Hin).
  destruct (throws c); [discriminate | reflexivity].
Qed.

Lemma unmount_run (w : World) :
  step clock throws EvUnmount w = cleanup throws (set_refAttached false w).
Proof. reflexivity. Qed.

Lemma dispatch_unregistered (ty : EventType) (w : World) :
  listeners w = [] -> dispatchEvent clock ty w = (Normal tt, w).
Proof.
  intros H. unfold dispatchEvent, bind, gets. rewrite H. reflexivity.
Qed.

Lemma results_run (r : Results) (k : nat) (w : World) :
  inflight w = S k ->
  exec (step clock throws (EvResults r)) w =
  exec (onResults clock r) (set_inflight k w).
Proof.
  intros Hk. unfold exec. cbn [step]. unfold bind at 1. unfold gets at 1.
  rewrite Hk. reflexivity.
Qed.

Lemma one_signal_accepted (m : string) (l : list string) (w : World) :
  signals (exec (showWarning clock m) w) = signals w ++ l ->
  clock (ticks w) - lastWarningTime w > 3000 ->
  lastWarningTime (exec (showWarning clock m) w) > lastWarningTime w + 3000 /\
  exists m', In m' l /\ warning (exec (showWarning clock m) w) = Some m'.
Proof.
  intros Hsig Hacc. rewrite signals_showWarning in Hsig.
  apply app_inv_head in Hsig. subst l.
  rewrite (showWarning_accepts clock m w Hacc).
  destruct w; cbn in *. split; [lia |].
  exists m. split; [left |]; reflexivity.
Qed.

(** Whatever the detector answers, when the answer makes the callback send
    a signal and more than 3000ms have passed since the last acceptance,
    the time of the last acceptance moves forward by more than 3000ms and
    [setWarning] is called with one of the signals sent. *)
Lemma onResults_accepted (r : Results) (l : list string) (w : World) :
  signals (exec (onResults clock r) w) = signals w ++ l ->
  l <> [] ->
  clock (ticks w) - lastWarningTime w > 3000 ->
  lastWarningTime (exec (onResults clock r) w) > lastWarningTime w + 3000 /\
  exists m, In m l /\ warning (exec (onResults clock r) w) = Some m.
Proof.
  intros Hsig Hl Hacc.
  destruct r as [[[| a [| b rest]] |]].
  - unfold exec in *. rewrite onResults_empty in *.
    apply one_signal_accepted; assumption.
  - unfold exec in Hsig |- *. rewrite onResults_single in Hsig |- *.
    destruct ((xCenter a <? 0.3)%float || (0.7 <? xCenter a)%float
              || (yCenter a <? 0.3)%float);
      destruct (0.75 <? yCenter a)%float; cbn [when] in Hsig |- *.
    + fold (exec (showWarning clock msg_OffScreen ;;
                  showWarning clock msg_LookingDown) w) in Hsig |- *.
      rewrite exec_showWarning_then in Hsig |- *.
      rewrite !signals_showWarning, <- app_assoc in Hsig.
      apply app_inv_head in Hsig. subst l.
      rewrite (showWarning_accepts clock msg_OffScreen w Hacc).
      unfold exec. rewrite showWarning_run.
      destruct (Z.ltb_spec 3000
                  (clock (ticks (set_lastWarningTime (clock (ticks w))
                                   (set_warning (Some msg_OffScreen)
                                      (noted msg_OffScreen w)))) -
                   lastWarningTime (set_lastWarningTime (clock (ticks w))
                                      (set_warning (Some msg_OffScreen)
                                         (noted msg_OffScreen w)))))
        as [Hsecond | Hsecond]; destruct w; cbn in *.
      * split; [lia |]. exists msg_LookingDown.
        split; [right; left |]; reflexivity.
      * split; [lia |]. exists msg_OffScreen.
        split; [left |]; reflexivity.
    + fold (exec (showWarning clock msg_OffScreen ;; ret tt) w) in Hsig |- *.
      rewrite exec_showWarning_then in Hsig |- *.
      apply one_signal_accepted; assumption.
    + apply (one_signal_accepted msg_LookingDown l w); assumption.
    + exfalso. apply Hl. cbn in Hsig.
      rewrite <- (app_nil_r (signals w)) in Hsig at 1.
      apply app_inv_head in Hsig. symmetry. exact Hsig.
  - unfold exec in *. rewrite onResults_many in *.
    apply one_signal_accepted; assumption.
  - unfold exec in *. rewrite onResults_undefined in *.
    apply one_signal_accepted; assumption.
Qed.

(** A world without listeners whose ref is detached. *)
Lemma unmounted_world (w' : World) :
  listeners w' = [] ->
  refAttached w' = false ->
  (forall e, is_lifecycle e = true ->
     WarningState (exec (step clock throws e) w') = WarningState w' /\
     signals (exec (step clock throws e) w') = signals w') /\
  exec (onFrame clock) w' = w' /\
  (forall r k, inflight w' = S k ->
     let w'' := exec (step clock throws (EvResults r)) w' in
     w'' = exec (onResults clock r) (set_inflight k w') /\
     forall l, signals w'' = signals w' ++ l -> l <> [] ->
       clock (ticks w') - lastWarningTime w' > 3000 ->
       lastWarningTime w'' > lastWarningTime w' + 3000 /\
       exists m, In m l /\ warning w'' = Some m) /\
  (forall k, inflight w' = S k ->
     clock (ticks w') - lastWarningTime w' > 3000 ->
     WarningState (exec (step clock throws (EvResults (mkResults (Some [])))) w') =
       (Some (message NoFace), clock (ticks w'))).
Proof.
  intros Hls Href'.
  split; [| split; [| split]].
  - intros e He. unfold exec.
    destruct e; try discriminate He; cbn [step]; unfold bind, modify.
    + rewrite dispatch_unregistered by (destruct w'; exact Hls).
      destruct w'; split; reflexivity.
    + rewrite dispatch_unregistered by exact Hls. split; reflexivity.
    + rewrite dispatch_unregistered by (destruct w'; exact Hls).
      destruct w'; split; reflexivity.
    + rewrite dispatch_unregistered by exact Hls. split; reflexivity.
  - unfold exec, onFrame, bind, gets, videoRef_current. rewrite Href'. reflexivity.
  - intros r k Hk. cbv zeta. rewrite (results_run r k w' Hk).
    split; [reflexivity |].
    intros l Hsig Hl Hacc.
    replace (lastWarningTime w') with (lastWarningTime (set_inflight k w'))
      by (destruct w'; reflexivity).
    apply onResults_accepted.
    + rewrite Hsig. destruct w'; reflexivity.
    + exact Hl.
    + destruct w'; exact Hacc.
  - intros k Hk Ht. rewrite (results_run _ k w' Hk).
    unfold exec. rewrite onResults_empty.
    change (snd (showWarning clock msg_NoFace (set_inflight k w')))
      with (exec (showWarning clock msg_NoFace) (set_inflight k w')).
    rewrite showWarning_accepts by (destruct w'; exact Ht).
    destruct w'; reflexivity.
Qed.

(** C3, as the code has it.  Once the cleanup has run to its end, the four
    lifecycle listeners are unregistered, so a late lifecycle event sends
    no signal and leaves the warning state alone; a late frame is skipped
    because [videoRef.current] is null.  There is no stopped flag: the
    [onResults] callback and [showWarning] test nothing of the kind, so the
    answer to a detector call that was in flight, whatever it is, is
    handled by the same [onResults] as before the unmount, classified and
    throttled as usual.  When it makes the callback send a signal and more
    than 3000ms have passed since the last acceptance, [lastWarningTime]
    moves forward and [setWarning] is called with one of the signals sent
    (a call that React drops, the component being unmounted). *)
Theorem C3_after_cleanup (w : World) :
  completes (step clock throws EvUnmount) w = true ->
  let w' := exec (step clock throws EvUnmount) w in
  (forall e, is_lifecycle e = true ->
     WarningState (exec (step clock throws e) w') = WarningState w' /\
     signals (exec (step clock throws e) w') = signals w') /\
  exec (onFrame clock) w' = w' /\
  (forall r k, inflight w' = S k ->
     let w'' := exec (step clock throws (EvResults r)) w' in
     w'' = exec (onResults clock r) (set_inflight k w') /\
     forall l, signals w'' = signals w' ++ l -> l <> [] ->
       clock (ticks w') - lastWarningTime w' > 3000 ->
       lastWarningTime w'' > lastWarningTime w' + 3000 /\
       exists m, In m l /\ warning w'' = Some m) /\
  (forall k, inflight w' = S k ->
     clock (ticks w') - lastWarningTime w' > 3000 ->
     WarningState (exec (step clock throws (EvResults (mkResults (Some [])))) w') =
       (Some (message NoFace), clock (ticks w'))).
Proof.
  intros Hc. cbv zeta. unfold completes in Hc. rewrite unmount_run in Hc.
  assert (Hnone := cleanup_completes_none _ Hc).
  destruct (cleanup_all_released throws _ Hnone) as (Hls & _ & _ & _ & _ & Href).
  unfold exec at 1 in Hls. unfold exec at 1 in Href.
  rewrite <- unmount_run in Hls, Href.
  fold (exec (step clock throws EvUnmount) w) in Hls, Href.
  apply unmounted_world; [exact Hls |].
  rewrite Href. destruct w; reflexivity.
Qed.

End AfterTeardown.

(** The theorem above on a run of the component: mounted, camera started,
    one frame sent to the detector, unmounted; the late answer reports one
    face at (0.5, 0.9). *)
Lemma C3_after_cleanup_witness :
  let c := frozen 5000 in
  let w := run c no_throw [EvMount Inline; EvStarted; EvVideo 4 320; EvFrame] initial in
  let w' := exec (step c no_throw EvUnmount) w in
  let late := mkResults (Some [mkDetection 0.5 0.9]) in
  WarningState (exec (step c no_throw EvBlur) w') = WarningState w' /\
  exec (onFrame c) w' = w' /\
  exec (step c no_throw (EvResults late)) w' =
    exec (onResults c late) (set_inflight 0 w') /\
  lastWarningTime (exec (step c no_throw (EvResults late)) w') >
    lastWarningTime w' + 3000.
Proof.
  cbv zeta.
  destruct (C3_after_cleanup (frozen 5000) no_throw
              (run (frozen 5000) no_throw
                 [EvMount Inline; EvStarted; EvVideo 4 320; EvFrame] initial)
              eq_refl) as (Hev & Hframe & Hres & _).
  specialize (Hres (mkResults (Some [mkDetection 0.5 0.9])) 0%nat eq_refl).
  cbv zeta in Hres. destruct Hres as [Heq Hacc].
  split; [apply (Hev EvBlur eq_refl) |].
  split; [exact Hframe |].
  split; [exact Heq |].
  destruct (Hacc [msg_LookingDown]) as [Hlast _].
  - vm_compute. reflexivity.
  - discriminate.
  - vm_compute. reflexivity.
  - exact Hlast.
Defined.

(** C3 as stated fails: after the cleanup has completed, the answer to a
    detector call that was in flight reaches [onResults] and changes the
    warning state: the time of the last acceptance moves from 0 to 5000,
    and [setWarning] is called with the NoFace message. *)
Lemma C3_late_result_mutates :
  let c := frozen 5000 in
  let w := run c no_throw
             [EvMount Inline; EvStarted; EvVideo 4 320; EvFrame; EvUnmount] initial in
  let w' := exec (step c no_throw (EvResults (mkResults (Some [])))) w in
  listeners w = [] /\
  camera w = Some (mkCamera false) /\
  inflight w = 1%nat /\
  WarningState w = (None, 0) /\
  WarningState w' = (Some msg_NoFace, 5000) /\
  WarningState w' <> WarningState w.
Proof. cbv zeta. vm_compute. repeat split. discriminate. Qed.

(** ** A failed camera start *)

Section CameraError.

Variable clock : nat -> Z.
Variable throws : ReleaseCall -> bool.

Lemma rejected_run (a : Await) (w : World) :
  awaiting w = Some a ->
  step clock throws EvRejected w =
  showWarning clock msg_PermissionDenied (set_awaiting None w).
Proof.
  intros H. cbn [step]. unfold bind at 1. unfold gets at 1. rewrite H.
  reflexivity.
Qed.

(** C7, as the code has it.  When the camera start-up fails, the rejection
    is caught: the handler completes normally, the listeners and the camera
    variable are as before, and the permission message is passed to
    [showWarning] like every other signal.  It is displayed when more than
    3000ms have passed since the last accepted signal and dropped
    otherwise; once displayed it is an ordinary warning, replaced by the
    next signal that the throttler accepts.  The component records no
    lifecycle state. *)
Theorem C7_camera_error_is_throttled (a : Await) (w : World) :
  awaiting w = Some a ->
  let now := clock (ticks w) in
  let w' := exec (step clock throws EvRejected) w in
  completes (step clock throws EvRejected) w = true /\
  signals w' = signals w ++ [message PermissionDenied] /\
  listeners w' = listeners w /\
  camera w' = camera w /\
  (now - lastWarningTime w > 3000 ->
     WarningState w' = (Some (message PermissionDenied), now)) /\
  (now - lastWarningTime w <= 3000 -> WarningState w' = WarningState w) /\
  (forall msg,
     clock (ticks w') - lastWarningTime w' > 3000 ->
     warning (exec (showWarning clock msg) w') = Some msg).
Proof.
  intros Ha. cbv zeta. cbn [message].
  assert (Hstep : exec (step clock throws EvRejected) w =
                  exec (showWarning clock msg_PermissionDenied) (set_awaiting None w))
    by (unfold exec; rewrite (rejected_run a w Ha); reflexivity).
  assert (Hcomp : completes (step clock throws EvRejected) w = true)
    by (unfold completes; rewrite (rejected_run a w Ha);
        apply (showWarning_completes clock msg_PermissionDenied)).
  rewrite Hstep.
  split; [exact Hcomp |].
  split; [rewrite signals_showWarning; destruct w; reflexivity |].
  assert (Hcases :
    exec (showWarning clock msg_PermissionDenied) (set_awaiting None w) =
      set_lastWarningTime (clock (ticks w))
        (set_warning (Some msg_PermissionDenied)
           (noted msg_PermissionDenied (set_awaiting None w))) \/
    exec (showWarning clock msg_PermissionDenied) (set_awaiting None w) =
      noted msg_PermissionDenied (set_awaiting None w)).
  { unfold exec. rewrite showWarning_run.
    destruct (3000 <? _); [left | right]; destruct w; reflexivity. }
  split; [destruct Hcases as [-> | ->]; destruct w; reflexivity |].
  split; [destruct Hcases as [-> | ->]; destruct w; reflexivity |].
  split; [| split].
  - intros Hacc.
    rewrite showWarning_accepts by (destruct w; exact Hacc).
    destruct w; reflexivity.
  - intros Hdrop.
    rewrite showWarning_drops by (destruct w; exact Hdrop).
    destruct w; reflexivity.
  - intros msg Hlater.
    rewrite (showWarning_accepts clock msg _ Hlater). reflexivity.
Qed.

End CameraError.

(** The theorem above on a page where the start-up fails 5000ms into the
    clock and nothing was displayed before: the message is shown. *)
Lemma C7_camera_error_is_throttled_witness :
  let c := frozen 5000 in
  let w := run c no_throw [EvMount Inline] initial in
  awaiting w = Some AwaitCameraStart /\
  WarningState (exec (step c no_throw EvRejected) w) =
    (Some msg_PermissionDenied, 5000).
Proof.
  cbv zeta. split; [reflexivity |].
  destruct (C7_camera_error_is_throttled (frozen 5000) no_throw AwaitCameraStart
              (run (frozen 5000) no_throw [EvMount Inline] initial) eq_refl)
    as (_ & _ & _ & _ & Hacc & _).
  apply Hacc. vm_compute. reflexivity.
Defined.

(** C7 as stated fails twice over.  The warning need not be surfaced: a
    window blur accepted at 5000 makes the throttler drop the permission
    message at 6000.  And a surfaced warning is not persistent: displayed
    at 5000, it is replaced by the blur message at 9000. *)
Lemma C7_denial_dropped_or_replaced :
  let dropped :=
    run (clock_of [5000; 6000]) no_throw
      [EvMount Inline; EvBlur; EvRejected] initial in
  let replaced :=
    run (clock_of [5000; 9000]) no_throw
      [EvMount Inline; EvRejected; EvBlur] initial in
  signals dropped = [msg_WindowBlur; msg_PermissionDenied] /\
  warning dropped = Some msg_WindowBlur /\
  signals replaced = [msg_PermissionDenied; msg_WindowBlur] /\
  warning replaced = Some msg_WindowBlur.
Proof. cbv zeta. vm_compute. repeat split. Qed.

(** ** The permission message and the throttle *)

Section Preservation.

Variable P : World -> Prop.

Lemma preserves_ret {A} (a : A) : preserves P (ret a).
Proof. intros w H. exact H. Qed.

Lemma preserves_throw {A} : preserves P (@throw A).
Proof. intros w H. exact H. Qed.

Lemma preserves_gets {A} (f : World -> A) : preserves P (gets f).
Proof. intros w H. exact H. Qed.

Lemma preserves_modify (f : World -> World) :
  (forall w, P w -> P (f w)) -> preserves P (modify f).
Proof. intros Hf w H. apply Hf, H. Qed.

Lemma preserves_bind {A B} (m : JS A) (k : A -> JS B) :
  preserves P m -> (forall a, preserves P (k a)) -> preserves P (bind m k).
Proof.
  intros Hm Hk w H. specialize (Hm w H). unfold exec, bind in *.
  destruct (m w) as [[a |] w1]; cbn [snd] in *.
  - apply Hk, Hm.
  - exact Hm.
Qed.

Lemma preserves_when (c : bool) (m : JS unit) :
  preserves P m -> preserves P (when c m).
Proof. intros Hm. destruct c; [exact Hm | apply preserves_ret]. Qed.

Lemma preserves_try_catch (m h : JS unit) :
  preserves P m -> preserves P h -> preserves P (try_catch m h).
Proof.
  intros Hm Hh w H. specialize (Hm w H). unfold exec, try_catch in *.
  destruct (m w) as [[a |] w1]; cbn [snd] in *.
  - exact Hm.
  - apply Hh, Hm.
Qed.

End Preservation.

(** Discharges the preservation of a property by a statement built from
    the combinators, given a tactic for the calls of [showWarning]. *)
Ltac keep_with sw :=
  repeat first
    [ apply preserves_ret
    | apply preserves_throw
    | apply preserves_gets
    | apply preserves_when
    | apply preserves_try_catch
    | sw
    | apply preserves_modify;
      let w := fresh "w" in
      let H := fresh "H" in
      intros w H; destruct w; exact H
    | apply preserves_bind; [| intros ?] ].

Section Denial.

Variable clock : nat -> Z.
Variable throws : ReleaseCall -> bool.

Lemma denial_absent_showWarning (msg : string) :
  msg <> msg_PermissionDenied ->
  preserves denial_absent (showWarning clock msg).
Proof.
  intros Hmsg w [Ha Hw]. unfold exec. rewrite showWarning_run.
  destruct (3000 <? _); destruct w; split; cbn in *; congruence.
Qed.

Ltac keep := keep_with ltac:(apply denial_absent_showWarning; discriminate).

Lemma denial_absent_onResults (r : Results) :
  preserves denial_absent (onResults clock r).
Proof.
  unfold onResults. destruct (detections r) as [ds |]; [| keep].
  destruct (List.length ds =? 0)%nat; [keep |].
  destruct (1 <? List.length ds)%nat; [keep |].
  destruct ds as [| face rest]; keep.
Qed.

Lemma denial_absent_onFrame : preserves denial_absent (onFrame clock).
Proof.
  unfold onFrame. apply preserves_bind; [keep |]. intros [v |]; [| keep].
  destruct ((readyState v <? 2)%N || (videoWidth v =? 0)%N);
    unfold faceDetector_send, record; keep.
Qed.

Lemma denial_absent_dispatch (ty : EventType) :
  preserves denial_absent (dispatchEvent clock ty).
Proof.
  unfold dispatchEvent. apply preserves_bind; [keep |]. intros ls.
  apply preserves_when.
  destruct ty; unfold handler, handleVisibilityChange, handleBlur,
    handleFullscreenChange, handleDeviceChange; keep.
Qed.

Lemma denial_absent_cleanup : preserves denial_absent (cleanup throws).
Proof.
  assert (Hrm : forall ty, preserves denial_absent (removeEventListener throws ty)).
  { intros ty. unfold removeEventListener, record.
    apply preserves_bind; [keep | intros _].
    destruct (throws (RemoveListener ty)); keep. }
  assert (Hstop : preserves denial_absent (Camera_stop throws)).
  { unfold Camera_stop, record.
    apply preserves_bind; [keep | intros _].
    destruct (throws CameraStop); keep. }
  unfold cleanup.
  repeat (apply preserves_bind; [apply Hrm | intros _]).
  apply preserves_bind; [keep |].
  intros [c |]; [exact Hstop | keep].
Qed.

(** Every event but a mount keeps the permission message away once no
    start-up is pending. *)
Lemma denial_absent_step (e : Event) :
  is_mount e = false -> preserves denial_absent (step clock throws e).
Proof.
  intros He.
  destruct e; try discriminate He; cbn [step].
  - apply preserves_bind; [keep | intros _; apply denial_absent_cleanup].
  - apply preserves_bind; [keep | intros _; apply denial_absent_dispatch].
  - apply denial_absent_dispatch.
  - apply preserves_bind; [keep | intros _; apply denial_absent_dispatch].
  - apply denial_absent_dispatch.
  - keep.
  - apply preserves_bind; [keep |]. intros [c |]; [| keep].
    apply preserves_when, denial_absent_onFrame.
  - apply preserves_bind; [keep |]. intros [| k]; [keep |].
    apply preserves_bind; [keep | intros _; apply denial_absent_onResults].
  - intros w [Ha Hw]. unfold exec, bind, gets. rewrite Ha. split; assumption.
  - intros w [Ha Hw]. unfold exec, bind, gets. rewrite Ha. split; assumption.
  - intros w [Ha Hw]. unfold exec, bind, gets. rewrite Ha. split; assumption.
Qed.

Lemma denial_absent_run (evs : list Event) :
  forallb (fun e => negb (is_mount e)) evs = true ->
  forall w, denial_absent w -> denial_absent (run clock throws evs w).
Proof.
  induction evs as [| e rest IH]; intros Hevs w Hw.
  - exact Hw.
  - cbn in Hevs. apply andb_true_iff in Hevs. destruct Hevs as [He Hrest].
    cbn [run]. apply IH; [exact Hrest |].
    apply denial_absent_step; [| exact Hw].
    destruct (is_mount e); [discriminate | reflexivity].
Qed.

End Denial.

(** C10.  The permission message goes through the same throttle as every
    other signal.  In either copy of the component there is an execution
    in which a window blur is accepted 1000ms before the failure of the
    camera start-up is reported: the permission message is passed to the
    throttler and dropped, the warning state stays as it was, and whatever
    happens to the mounted component afterwards, with any clock and any
    failing release, the permission message is never displayed. *)
Theorem C10_permission_denied_throttled (src : Source) :
  exists (clock : nat -> Z) (before : list Event),
    let w := run clock no_throw (EvMount src :: before) initial in
    let w' := exec (step clock no_throw EvRejected) w in
    awaiting w <> None /\
    warning w = Some (message WindowBlur) /\
    0 <= clock (ticks w) - lastWarningTime w < 3000 /\
    signals w' = signals w ++ [message PermissionDenied] /\
    WarningState w' = WarningState w /\
    forall (clock' : nat -> Z) (throws : ReleaseCall -> bool) (after : list Event),
      forallb (fun e => negb (is_mount e)) after = true ->
      warning (run clock' throws after w') <> Some (message PermissionDenied).
Proof.
  exists (clock_of [5000; 6000]), [EvBlur]. cbv zeta.
  assert (Hnever :
    forall w', denial_absent w' ->
    forall (clock' : nat -> Z) (throws : ReleaseCall -> bool) (after : list Event),
      forallb (fun e => negb (is_mount e)) after = true ->
      warning (run clock' throws after w') <> Some (message PermissionDenied)).
  { intros w' Hw' clock' throws after Hafter.
    apply (denial_absent_run clock' throws after Hafter w' Hw'). }
  destruct src.
  - split; [vm_compute; discriminate |].
    split; [vm_compute; reflexivity |].
    split; [vm_compute; split; [discriminate | reflexivity] |].
    split; [vm_compute; reflexivity |].
    split; [vm_compute; reflexivity |].
    apply Hnever. vm_compute. split; [reflexivity | discriminate].
  - split; [vm_compute; discriminate |].
    split; [vm_compute; reflexivity |].
    split; [vm_compute; split; [discriminate | reflexivity] |].
    split; [vm_compute; reflexivity |].
    split; [vm_compute; reflexivity |].
    apply Hnever. vm_compute. split; [reflexivity | discriminate].
Qed.

(** ** Unmounting before the permission request resolves *)

Section Leak.

Variable clock : nat -> Z.
Variable throws : ReleaseCall -> bool.
Variable stream : nat.

Lemma leaked_showWarning (msg : string) :
  preserves (leaked stream) (showWarning clock msg).
Proof.
  intros w H. unfold exec. rewrite showWarning_run.
  destruct (3000 <? _); destruct w; exact H.
Qed.

Ltac hold := keep_with ltac:(apply leaked_showWarning).

Lemma leaked_onResults (r : Results) :
  preserves (leaked stream) (onResults clock r).
Proof.
  unfold onResults. destruct (detections r) as [ds |]; [| hold].
  destruct (List.length ds =? 0)%nat; [hold |].
  destruct (1 <? List.length ds)%nat; [hold |].
  destruct ds as [| face rest]; hold.
Qed.

Lemma leaked_dispatch (ty : EventType) :
  preserves (leaked stream) (dispatchEvent clock ty).
Proof.
  unfold dispatchEvent. apply preserves_bind; [hold |]. intros ls.
  apply preserves_when.
  destruct ty; unfold handler, handleVisibilityChange, handleBlur,
    handleFullscreenChange, handleDeviceChange; hold.
Qed.

(** With [camera] null the cleanup never reaches [camera.stop()]. *)
Lemma leaked_cleanup : preserves (leaked stream) (cleanup throws).
Proof.
  assert (Hrm : forall ty, preserves (leaked stream) (removeEventListener throws ty)).
  { intros ty. unfold removeEventListener, record.
    apply preserves_bind; [hold | intros _].
    destruct (throws (RemoveListener ty)); hold. }
  unfold cleanup.
  repeat (apply preserves_bind; [apply Hrm | intros _]).
  intros w H. unfold exec, bind, gets.
  destruct H as (Hcam & Haw & Hin). rewrite Hcam.
  repeat split; assumption.
Qed.

Lemma leaked_step (e : Event) :
  is_mount e = false -> preserves (leaked stream) (step clock throws e).
Proof.
  intros He.
  destruct e; try discriminate He; cbn [step].
  - apply preserves_bind; [hold | intros _; apply leaked_cleanup].
  - apply preserves_bind; [hold | intros _; apply leaked_dispatch].
  - apply leaked_dispatch.
  - apply preserves_bind; [hold | intros _; apply leaked_dispatch].
  - apply leaked_dispatch.
  - hold.
  - intros w H. unfold exec, bind, gets.
    destruct H as (Hcam & Haw & Hin). rewrite Hcam. repeat split; assumption.
  - apply preserves_bind; [hold |]. intros [| k]; [hold |].
    apply preserves_bind; [hold | intros _; apply leaked_onResults].
  - intros w H. unfold exec, bind, gets.
    destruct H as (Hcam & Haw & Hin). rewrite Haw. repeat split; assumption.
  - intros w H. unfold exec, bind, gets.
    destruct H as (Hcam & Haw & Hin). rewrite Haw. repeat split; assumption.
  - intros w H. unfold exec, bind, gets.
    destruct H as (Hcam & Haw & Hin). rewrite Haw. repeat split; assumption.
Qed.

Lemma leaked_run (evs : list Event) :
  forallb (fun e => negb (is_mount e)) evs = true ->
  forall w, leaked stream w -> leaked stream (run clock throws evs w).
Proof.
  induction evs as [| e rest IH]; intros Hevs w Hw.
  - exact Hw.
  - cbn in Hevs. apply andb_true_iff in Hevs. destruct Hevs as [He Hrest].
    cbn [run]. apply IH; [exact Hrest |].
    apply leaked_step; [| exact Hw].
    destruct (is_mount e); [discriminate | reflexivity].
Qed.

End Leak.

(** C9.  In [unnamed/part_000], mounting, unmounting and only then the
    grant of the camera: no exception escapes and no listener stays
    registered, but the cleanup ran while [camera] was still null, so
    [camera.stop()] was not called, and when the stream arrives
    [videoRef.current] is null, so it is neither attached nor stopped.  The
    granted stream is live after the run, and it stays live whatever
    happens to the unmounted component afterwards. *)
Theorem C9_unmount_before_grant (clock : nat -> Z) (stream : nat) :
  let evs := [EvMount AutoStart; EvUnmount; EvGranted stream] in
  let w := run clock no_throw evs initial in
  all_complete clock no_throw evs initial = true /\
  listeners w = [] /\
  camera w = None /\
  releases w =
    [RemoveListener visibilitychange; RemoveListener blur;
     RemoveListener fullscreenchange; RemoveListener devicechange] /\
  liveStreams w = [stream] /\
  forall (clock' : nat -> Z) (throws : ReleaseCall -> bool) (after : list Event),
    forallb (fun e => negb (is_mount e)) after = true ->
    In stream (liveStreams (run clock' throws after w)).
Proof.
  cbv zeta.
  split; [vm_compute; reflexivity |].
  split; [vm_compute; reflexivity |].
  split; [vm_compute; reflexivity |].
  split; [vm_compute; reflexivity |].
  split; [vm_compute; reflexivity |].
  intros clock' throws after Hafter.
  apply (leaked_run clock' throws stream after Hafter).
  vm_compute. repeat split. left. reflexivity.
Qed.

(** * Further properties of the monitor *)

(** ** What only [showWarning] can change *)

Section ThrottleFrame.

Variable clock : nat -> Z.
Variable throws : ReleaseCall -> bool.

(** A property that looks only at the throttler's part of the world and
    that every call of [showWarning] with one of the component's messages
    keeps. *)
Variable P : World -> Prop.
Hypothesis P_frame :
  forall w w', throttle_state w' = throttle_state w -> P w -> P w'.
Hypothesis P_showWarning :
  forall k, preserves P (showWarning clock (message k)).

Ltac framed :=
  keep_with ltac:(first
    [ exact (P_showWarning NoFace) | exact (P_showWarning MultipleFaces)
    | exact (P_showWarning OffScreen) | exact (P_showWarning LookingDown)
    | exact (P_showWarning CameraBlocked) | exact (P_showWarning TabSwitch)
    | exact (P_showWarning WindowBlur) | exact (P_showWarning FullscreenExit)
    | exact (P_showWarning DeviceChange) | exact (P_showWarning PermissionDenied)
    | apply preserves_modify;
      let w := fresh "w" in
      let H := fresh "H" in
      intros w H; refine (P_frame w _ _ H); destruct w; reflexivity ]).

Lemma framed_onResults (r : Results) : preserves P (onResults clock r).
Proof.
  unfold onResults. destruct (detections r) as [ds |]; [| framed].
  destruct (List.length ds =? 0)%nat; [framed |].
  destruct (1 <? List.length ds)%nat; [framed |].
  destruct ds as [| face rest]; framed.
Qed.

Lemma framed_onFrame : preserves P (onFrame clock).
Proof.
  unfold onFrame. apply preserves_bind; [framed |]. intros [v |]; [| framed].
  destruct ((readyState v <? 2)%N || (videoWidth v =? 0)%N);
    unfold faceDetector_send, record; framed.
Qed.

Lemma framed_dispatch (ty : EventType) : preserves P (dispatchEvent clock ty).
Proof.
  unfold dispatchEvent. apply preserves_bind; [framed |]. intros ls.
  apply preserves_when.
  destruct ty; unfold handler, handleVisibilityChange, handleBlur,
    handleFullscreenChange, handleDeviceChange; framed.
Qed.

Lemma framed_cleanup : preserves P (cleanup throws).
Proof.
  assert (Hrm : forall ty, preserves P (removeEventListener throws ty)).
  { intros ty. unfold removeEventListener, record.
    apply preserves_bind; [framed | intros _].
    destruct (throws (RemoveListener ty)); framed. }
  assert (Hstop : preserves P (Camera_stop throws)).
  { unfold Camera_stop, record.
    apply preserves_bind; [framed | intros _].
    destruct (throws CameraStop); framed. }
  unfold cleanup.
  repeat (apply preserves_bind; [apply Hrm | intros _]).
  apply preserves_bind; [framed |].
  intros [c |]; [exact Hstop | framed].
Qed.

Lemma framed_step (e : Event) :
  is_mount e = false -> preserves P (step clock throws e).
Proof.
  intros He.
  destruct e; try discriminate He; cbn [step].
  - apply preserves_bind; [framed | intros _; apply framed_cleanup].
  - apply preserves_bind; [framed | intros _; apply framed_dispatch].
  - apply framed_dispatch.
  - apply preserves_bind; [framed | intros _; apply framed_dispatch].
  - apply framed_dispatch.
  - framed.
  - apply preserves_bind; [framed |]. intros [c |]; [| framed].
    apply preserves_when, framed_onFrame.
  - apply preserves_bind; [framed |]. intros [| k]; [framed |].
    apply preserves_bind; [framed | intros _; apply framed_onResults].
  - apply preserves_bind; [framed |]. intros [[] |]; [| framed | framed].
    apply preserves_bind; [framed | intros _].
    apply preserves_bind; [framed | intros _].
    apply preserves_try_catch; [| unfold onCameraError; framed].
    unfold initCamera_resume, Camera_start.
    apply preserves_bind; [framed |]. intros [v |]; framed.
  - apply preserves_bind; [framed |]. intros [[] |]; framed.
  - apply preserves_bind; [framed |]. intros [a |]; [| framed].
    unfold onCameraError. framed.
Qed.

Lemma framed_run (evs : list Event) :
  forallb (fun e => negb (is_mount e)) evs = true ->
  forall w, P w -> P (run clock throws evs w).
Proof.
  induction evs as [| e rest IH]; intros Hevs w Hw.
  - exact Hw.
  - cbn in Hevs. apply andb_true_iff in Hevs. destruct Hevs as [He Hrest].
    cbn [run]. apply IH; [exact Hrest |].
    apply framed_step; [| exact Hw].
    destruct (is_mount e); [discriminate | reflexivity].
Qed.

End ThrottleFrame.

(** ** Invariants of the warning state over whole runs *)

Section WarningInvariants.

Variable clock : nat -> Z.
Variable throws : ReleaseCall -> bool.

(** X1. While every clock read stays within 3000ms of the last acceptance,
    nothing the host does to the mounted component changes the warning
    state: no frame, detector answer, lifecycle event, failed start-up or
    unmount gets a message through. *)
Theorem silent_until_window_ends (evs : list Event) (w : World) :
  forallb (fun e => negb (is_mount e)) evs = true ->
  (forall n, (ticks w <= n)%nat -> clock n - lastWarningTime w <= 3000) ->
  WarningState (run clock throws evs w) = WarningState w.
Proof.
  intros Hevs Hclock.
  pose (P := fun w' : World =>
               WarningState w' = WarningState w /\ (ticks w <= ticks w')%nat).
  assert (HP : P (run clock throws evs w)).
  { apply (framed_run clock throws P); [| | exact Hevs | split; [reflexivity | lia]].
    - intros w1 w2 Heq [Hws Htk]. unfold P, throttle_state, WarningState in *.
      injection Heq as Hw Hl Ht. rewrite Hw, Hl, Ht. split; assumption.
    - intros k w1 [Hws Htk]. unfold P.
      assert (Hlast : lastWarningTime w1 = lastWarningTime w)
        by (unfold WarningState in Hws; congruence).
      rewrite showWarning_drops by (rewrite Hlast; apply Hclock, Htk).
      split; [destruct w1; exact Hws | destruct w1; cbn in *; lia]. }
  exact (proj1 HP).
Qed.

(** A new instance starts without a warning. *)
Lemma mount_resets_warning (src : Source) (w : World) :
  warning (exec (step clock throws (EvMount src)) w) = None.
Proof.
  pose (Q := fun w' : World => warning w' = None).
  assert (Hmod : forall f : World -> World,
            (forall w1, warning (f w1) = warning w1) -> preserves Q (modify f)).
  { intros f Hf w1 H1. unfold Q, exec, modify in *. cbn. rewrite Hf. exact H1. }
  assert (Hadd : forall ty, preserves Q (addEventListener ty)).
  { intros ty. apply Hmod. intros w1.
    destruct (existsb (EventType_eqb ty) (listeners w1)); destruct w1; reflexivity. }
  assert (Hall : preserves Q addListeners).
  { unfold addListeners.
    repeat (apply preserves_bind; [apply Hadd | intros _]). apply Hadd. }
  assert (Hrender : forall m : JS unit,
            preserves Q m -> Q (exec (modify render ;; m) w)).
  { intros m Hm.
    change (exec (modify render ;; m) w) with (exec m (render w)).
    apply Hm. reflexivity. }
  destruct src; cbn [step]; apply Hrender;
    unfold mount_inline, mount_autostart, initCamera, Camera_start.
  - apply preserves_bind; [apply Hmod; intros []; reflexivity | intros _].
    apply preserves_bind; [apply Hmod; intros []; reflexivity | intros _].
    apply preserves_bind; [apply preserves_gets | intros ref].
    apply preserves_bind; [| intros _; exact Hall].
    destruct ref; [| apply preserves_ret].
    apply preserves_bind; [apply Hmod; intros []; reflexivity | intros _].
    apply Hmod; intros []; reflexivity.
  - apply preserves_bind; [apply Hmod; intros []; reflexivity | intros _].
    apply preserves_bind; [apply Hmod; intros []; reflexivity | intros _].
    apply preserves_bind; [apply Hmod; intros []; reflexivity | intros _].
    exact Hall.
Qed.

(** X2. The component never takes a warning back: no call of [setWarning]
    passes [null].  From the mount of an instance on, through its unmount
    and whatever reaches its closures afterwards, once the warning state
    holds a message it holds one for good; only the mount of a new
    instance, which starts from [useState(null)], is without one. *)
Theorem warning_never_cleared (evs : list Event) (w : World) :
  forallb (fun e => negb (is_mount e)) evs = true ->
  warning w <> None ->
  warning (run clock throws evs w) <> None /\
  forall src, warning (exec (step clock throws (EvMount src))
                         (run clock throws evs w)) = None.
Proof.
  intros Hevs Hw. split; [| intros src; apply mount_resets_warning].
  apply (framed_run clock throws (fun w' => warning w' <> None));
    [| | exact Hevs | exact Hw].
  - intros w1 w2 Heq H1. unfold throttle_state in Heq.
    injection Heq as Hwarn _ _. rewrite Hwarn. exact H1.
  - intros k w1 H1. unfold exec. rewrite showWarning_run.
    destruct (3000 <? _); destruct w1; cbn in *; [discriminate | exact H1].
Qed.

(** X3. On every run from the freshly rendered page the displayed warning is
    absent or is one of the ten messages of the component. *)
Theorem warning_is_a_known_message (evs : list Event) :
  known_message (warning (run clock throws evs initial)).
Proof.
  assert (Hgen : forall w, known_message (warning w) ->
                           known_message (warning (run clock throws evs w))).
  { induction evs as [| e rest IH]; intros w Hw; [exact Hw |].
    cbn [run]. apply IH.
    destruct (is_mount e) eqn:He.
    - destruct e; try discriminate He.
      rewrite mount_resets_warning. left. reflexivity.
    - apply (framed_step clock throws (fun w' => known_message (warning w')));
        [| | exact He | exact Hw].
      + intros w1 w2 Heq H1. unfold throttle_state in Heq.
        injection Heq as Hwarn _ _. rewrite Hwarn. exact H1.
      + intros k w1 H1. unfold exec. rewrite showWarning_run.
        destruct (3000 <? _); destruct w1; cbn in *; [| exact H1].
        right. exists k. reflexivity. }
  apply Hgen. left. reflexivity.
Qed.

(** X4. Whatever the clock does, going backwards included, the time of the
    last acceptance never goes back while the component stays mounted: over
    any run it is unchanged or has advanced by more than 3000ms. *)
Theorem lastWarningTime_only_advances (evs : list Event) (w : World) :
  forallb (fun e => negb (is_mount e)) evs = true ->
  let w' := run clock throws evs w in
  lastWarningTime w' = lastWarningTime w \/
  lastWarningTime w' > lastWarningTime w + 3000.
Proof.
  intros Hevs. cbv zeta.
  apply (framed_run clock throws
           (fun w' => lastWarningTime w' = lastWarningTime w \/
                      lastWarningTime w' > lastWarningTime w + 3000));
    [| | exact Hevs | left; reflexivity].
  - intros w1 w2 Heq H1. unfold throttle_state in Heq.
    injection Heq as _ Hl _. rewrite Hl. exact H1.
  - intros k w1 H1. unfold exec. rewrite showWarning_run.
    destruct (Z.ltb_spec 3000 (clock (ticks w1) - lastWarningTime w1));
      destruct w1; cbn in *; [right; lia | exact H1].
Qed.

End WarningInvariants.

(** A blur accepted at 5000, then a hidden tab, a device change, a failed
    start-up and the unmount, none later than 8000: the blur message
    stays. *)
Lemma silent_until_window_ends_witness :
  let c := clock_of [5000; 6000; 7000; 8000] in
  let w := run c no_throw [EvMount Inline; EvBlur] initial in
  WarningState w = (Some msg_WindowBlur, 5000) /\
  signals (run c no_throw [EvVisibility true; EvDevice; EvRejected; EvUnmount] w) =
    [msg_WindowBlur; msg_TabSwitch; msg_DeviceChange; msg_PermissionDenied] /\
  WarningState (run c no_throw [EvVisibility true; EvDevice; EvRejected; EvUnmount] w) =
    (Some msg_WindowBlur, 5000).
Proof.
  cbv zeta. split; [vm_compute; reflexivity |].
  split; [vm_compute; reflexivity |].
  rewrite (silent_until_window_ends (clock_of [5000; 6000; 7000; 8000]) no_throw
             [EvVisibility true; EvDevice; EvRejected; EvUnmount]
             (run (clock_of [5000; 6000; 7000; 8000]) no_throw
                [EvMount Inline; EvBlur] initial) eq_refl).
  - vm_compute. reflexivity.
  - intros n Hn.
    change (ticks (run (clock_of [5000; 6000; 7000; 8000]) no_throw
                     [EvMount Inline; EvBlur] initial)) with 1%nat in Hn.
    change (lastWarningTime (run (clock_of [5000; 6000; 7000; 8000]) no_throw
                     [EvMount Inline; EvBlur] initial)) with 5000.
    destruct n as [| [| [| [| [| n]]]]]; [lia | | | | |];
      vm_compute; intros Hgt; discriminate Hgt.
Defined.

(** A blur message set at 5000 is replaced at 9000 and stays through the
    unmount and a late device change; the next instance starts without a
    warning. *)
Lemma warning_never_cleared_witness :
  let c := clock_of [5000; 9000] in
  let w := run c no_throw [EvMount Inline; EvBlur] initial in
  let w' := run c no_throw [EvVisibility true; EvUnmount; EvDevice] w in
  warning w = Some msg_WindowBlur /\
  warning w' = Some msg_TabSwitch /\
  warning w' <> None /\
  warning (exec (step c no_throw (EvMount AutoStart)) w') = None.
Proof.
  cbv zeta. split; [vm_compute; reflexivity |].
  split; [vm_compute; reflexivity |].
  destruct (warning_never_cleared (clock_of [5000; 9000]) no_throw
              [EvVisibility true; EvUnmount; EvDevice]
              (run (clock_of [5000; 9000]) no_throw [EvMount Inline; EvBlur] initial)
              eq_refl) as [Hkeep Hnew].
  - vm_compute. discriminate.
  - split; [exact Hkeep | exact (Hnew AutoStart)].
Defined.

(** With a clock that jumps back from 9000 to 100, two blurs: the time of
    the last acceptance stays at 9000. *)
Lemma lastWarningTime_only_advances_witness :
  let c := clock_of [9000; 100] in
  let w := run c no_throw [EvMount Inline; EvBlur] initial in
  let w' := run c no_throw [EvBlur] w in
  lastWarningTime w = 9000 /\
  (lastWarningTime w' = lastWarningTime w \/
   lastWarningTime w' > lastWarningTime w + 3000).
Proof.
  cbv zeta. split; [vm_compute; reflexivity |].
  apply (lastWarningTime_only_advances (clock_of [9000; 100]) no_throw [EvBlur]
           (run (clock_of [9000; 100]) no_throw [EvMount Inline; EvBlur] initial)
           eq_refl).
Defined.

(** ** The lifecycle listeners *)

Section FanIn.

Variable clock : nat -> Z.
Variable throws : ReleaseCall -> bool.

Lemma mount_registers (src : Source) (w0 : World) :
  listeners w0 = [] ->
  listeners (exec (step clock throws (EvMount src)) w0) =
  [visibilitychange; blur; fullscreenchange; devicechange].
Proof.
  intros H0.
  destruct w0 as [wa cam lt vid ra hid fs ls lv aw inf tk hist].
  cbn in H0. subst ls.
  destruct src, ra; reflexivity.
Qed.

Lemma dispatch_registered (ty : EventType) (w : World) :
  existsb (EventType_eqb ty) (listeners w) = true ->
  dispatchEvent clock ty w = handler clock ty w.
Proof.
  intros H. unfold dispatchEvent, bind, gets. rewrite H. reflexivity.
Qed.

Lemma fan_in_registered (e : Event) (w : World) :
  is_lifecycle e = true ->
  (forall ty, existsb (EventType_eqb ty) (listeners w) = true) ->
  signals (exec (step clock throws e) w) = signals w ++ fan_in e.
Proof.
  intros He Hreg.
  destruct e; try discriminate He; unfold exec; cbn [step fan_in message].
  - unfold bind at 1. unfold modify at 1.
    rewrite dispatch_registered by (destruct w; apply Hreg).
    unfold handler, handleVisibilityChange, bind, gets.
    destruct nowHidden.
    + replace (hidden (set_hidden true w)) with true by (destruct w; reflexivity).
      cbn [when].
      change (snd (showWarning clock msg_TabSwitch (set_hidden true w)))
        with (exec (showWarning clock msg_TabSwitch) (set_hidden true w)).
      rewrite signals_showWarning. destruct w; reflexivity.
    + replace (hidden (set_hidden false w)) with false by (destruct w; reflexivity).
      cbn. rewrite app_nil_r. destruct w; reflexivity.
  - rewrite dispatch_registered by apply Hreg.
    apply (signals_showWarning clock msg_WindowBlur w).
  - unfold bind at 1. unfold modify at 1.
    rewrite dispatch_registered by (destruct w; apply Hreg).
    unfold handler, handleFullscreenChange, bind, gets.
    destruct element.
    + replace (fullscreenElement (set_fullscreenElement true w)) with true
        by (destruct w; reflexivity).
      cbn. rewrite app_nil_r. destruct w; reflexivity.
    + replace (fullscreenElement (set_fullscreenElement false w)) with false
        by (destruct w; reflexivity).
      cbn [negb when].
      change (snd (showWarning clock msg_FullscreenExit (set_fullscreenElement false w)))
        with (exec (showWarning clock msg_FullscreenExit) (set_fullscreenElement false w)).
      rewrite signals_showWarning. destruct w; reflexivity.
  - rewrite dispatch_registered by apply Hreg.
    apply (signals_showWarning clock msg_DeviceChange w).
Qed.

(** X5. Mounting either copy on a page without listeners registers exactly the
    four lifecycle listeners, each once, and from then on each lifecycle
    event sends its own signal to the throttler: a tab switch only when the
    document has become hidden, a fullscreen exit only when no element is
    fullscreen any more, a blur and a device change every time.  Returning
    to the tab or entering fullscreen sends nothing. *)
Theorem fan_in_after_mount (src : Source) (e : Event) (w0 : World) :
  listeners w0 = [] ->
  is_lifecycle e = true ->
  let w := exec (step clock throws (EvMount src)) w0 in
  listeners w = [visibilitychange; blur; fullscreenchange; devicechange] /\
  signals (exec (step clock throws e) w) = signals w ++ fan_in e.
Proof.
  intros H0 He. cbv zeta.
  assert (Hls := mount_registers src w0 H0).
  split; [exact Hls |].
  apply fan_in_registered; [exact He |].
  intros ty. rewrite Hls. destruct ty; reflexivity.
Qed.

End FanIn.

(** Returning to the tab after the mount of the first copy sends nothing;
    leaving it sends the tab-switch signal. *)
Lemma fan_in_after_mount_witness :
  let c := frozen 5000 in
  let w := exec (step c no_throw (EvMount Inline)) initial in
  signals (exec (step c no_throw (EvVisibility false)) w) = [] /\
  signals (exec (step c no_throw (EvVisibility true)) w) = [msg_TabSwitch].
Proof.
  cbv zeta. split.
  - apply (fan_in_after_mount (frozen 5000) no_throw Inline (EvVisibility false)
             initial eq_refl eq_refl).
  - apply (fan_in_after_mount (frozen 5000) no_throw Inline (EvVisibility true)
             initial eq_refl eq_refl).
Defined.

(** ** The quiet rectangle of the classifier *)

Section FloatOrder.

Lemma SFcompare_antisym (a b : SpecFloat.spec_float) :
  SpecFloat.SFcompare b a = option_map CompOpp (SpecFloat.SFcompare a b).
Proof.
  destruct a as [sa | sa | | sa ma ea], b as [sb | sb | | sb mb eb]; cbn;
    try reflexivity;
    try (destruct sa; reflexivity); try (destruct sb; reflexivity);
    try (destruct sa, sb; reflexivity).
  destruct sa, sb; try reflexivity; f_equal;
    rewrite (Z.compare_antisym ea eb); destruct (ea ?= eb)%Z eqn:E; cbn;
    try reflexivity;
    rewrite ?(Pos.compare_cont_antisym ma mb Eq); cbn;
    rewrite ?CompOpp_involutive; reflexivity.
Qed.

Lemma Prim2SF_nan (x : float) : is_nan x = true -> Prim2SF x = SpecFloat.S754_nan.
Proof. intros H. unfold Prim2SF. rewrite H. reflexivity. Qed.

Lemma Prim2SF_not_nan (x : float) :
  is_nan x = false -> Prim2SF x <> SpecFloat.S754_nan.
Proof.
  intros H E. unfold is_nan in H. rewrite eqb_spec, E in H. discriminate H.
Qed.

(** A comparison with NaN is false on either side. *)
Lemma ltb_nan (x c : float) :
  is_nan x = true -> (x <? c)%float = false /\ (c <? x)%float = false.
Proof.
  intros H. rewrite !ltb_spec, (Prim2SF_nan x H). unfold SpecFloat.SFltb.
  split; [reflexivity |]. destruct (Prim2SF c); reflexivity.
Qed.

(** Doubles other than NaN are totally ordered. *)
Lemma ltb_negb_leb (a b : float) :
  is_nan a = false -> is_nan b = false ->
  (a <? b)%float = negb (b <=? a)%float.
Proof.
  intros Ha Hb. rewrite ltb_spec, leb_spec. unfold SpecFloat.SFltb, SpecFloat.SFleb.
  rewrite (SFcompare_antisym (Prim2SF a) (Prim2SF b)).
  apply Prim2SF_not_nan in Ha, Hb.
  destruct (Prim2SF a) as [sa | sa | | sa ma ea], (Prim2SF b) as [sb | sb | | sb mb eb];
    try congruence; cbn;
    try reflexivity; try (destruct sa; reflexivity); try (destruct sb; reflexivity);
    try (destruct sa, sb; reflexivity).
  destruct sa, sb; try reflexivity;
    destruct (ea ?= eb)%Z; try reflexivity;
    destruct (Pos.compare_cont Eq ma mb); reflexivity.
Qed.

(** The two comparisons of a position check fail together exactly on the
    quiet coordinates. *)
Lemma outside_iff_not_quiet (lo hi v : float) :
  is_nan lo = false -> is_nan hi = false ->
  (v <? lo)%float || (hi <? v)%float = negb (quiet_coordinate lo hi v).
Proof.
  intros Hlo Hhi. unfold quiet_coordinate, within.
  destruct (is_nan v) eqn:Hv.
  - destruct (ltb_nan v lo Hv) as [H1 _]. destruct (ltb_nan v hi Hv) as [_ H2].
    rewrite H1, H2. reflexivity.
  - rewrite (ltb_negb_leb v lo Hv Hlo), (ltb_negb_leb hi v Hhi Hv).
    cbn [orb]. rewrite negb_andb. reflexivity.
Qed.

End FloatOrder.

Section QuietRectangle.

Variable clock : nat -> Z.

Lemma app_eq_self {A} (l l' : list A) : l ++ l' = l -> l' = [].
Proof.
  intros H. apply (f_equal (@List.length A)) in H. rewrite length_app in H.
  destruct l'; [reflexivity | cbn in H; lia].
Qed.

(** What a frame with a single detection sends, by its two checks. *)
Lemma onResults_single_signals (face : Detection) (w : World) :
  signals (exec (onResults clock (mkResults (Some [face]))) w) =
  signals w ++
  (if (xCenter face <? 0.3)%float || (0.7 <? xCenter face)%float
      || (yCenter face <? 0.3)%float
   then [msg_OffScreen] else []) ++
  (if (0.75 <? yCenter face)%float then [msg_LookingDown] else []).
Proof.
  unfold exec. rewrite onResults_single.
  destruct ((xCenter face <? 0.3)%float || (0.7 <? xCenter face)%float
            || (yCenter face <? 0.3)%float);
    destruct (0.75 <? yCenter face)%float; cbn [when app].
  - fold (exec (showWarning clock msg_OffScreen ;; showWarning clock msg_LookingDown) w).
    rewrite exec_showWarning_then, !signals_showWarning, <- app_assoc. reflexivity.
  - fold (exec (showWarning clock msg_OffScreen ;; ret tt) w).
    rewrite exec_showWarning_then. unfold exec at 1. cbn [ret snd].
    apply signals_showWarning.
  - unfold bind, ret.
    apply (signals_showWarning clock msg_LookingDown w).
  - cbn. rewrite app_nil_r. reflexivity.
Qed.

(** X6. A frame with a single detection sends no signal exactly when each
    coordinate of the centre of the face lies in its closed interval,
    [0.3, 0.7] for x and [0.3, 0.75] for y, bounds included, or is NaN (a
    NaN coordinate fails every comparison); in that case the callback
    leaves the world as it was. *)
Theorem single_face_quiet_iff (face : Detection) (w : World) :
  let w' := exec (onResults clock (mkResults (Some [face]))) w in
  (signals w' = signals w <-> quiet_position face = true) /\
  (quiet_position face = true -> w' = w).
Proof.
  cbv zeta.
  assert (Hx := outside_iff_not_quiet 0.3 0.7 (xCenter face) eq_refl eq_refl).
  assert (Hy := outside_iff_not_quiet 0.3 0.75 (yCenter face) eq_refl eq_refl).
  rewrite onResults_single_signals. unfold quiet_position, exec.
  rewrite onResults_single.
  destruct (xCenter face <? 0.3)%float, (0.7 <? xCenter face)%float,
    (yCenter face <? 0.3)%float, (0.75 <? yCenter face)%float,
    (quiet_coordinate 0.3 0.7 (xCenter face)),
    (quiet_coordinate 0.3 0.75 (yCenter face));
    try discriminate Hx; try discriminate Hy; cbn [orb andb app when];
    (split; [split; [intros H; apply app_eq_self in H; discriminate H
                    | discriminate]
            | discriminate])
    || (split; [split; [reflexivity | intros _; apply app_nil_r] | reflexivity]).
Qed.

(** X7. Whatever the detector reports, one call of the callback sends one of
    six sequences of signals, never more than two signals and never a
    position signal together with NoFace or MultipleFaces; it does not call
    the detector and leaves the listeners, the camera, the streams and the
    pending start-up alone. *)
Theorem onResults_outcomes (r : Results) (w : World) :
  let w' := exec (onResults clock r) w in
  (exists l, In l classifier_outcomes /\ signals w' = signals w ++ l) /\
  sends w' = sends w /\
  inflight w' = inflight w /\
  listeners w' = listeners w /\
  camera w' = camera w /\
  liveStreams w' = liveStreams w /\
  awaiting w' = awaiting w.
Proof.
  cbv zeta. split.
  - unfold classifier_outcomes. cbn [message].
    destruct r as [[ds |]].
    + destruct ds as [| a [| b rest]].
      * exists [msg_NoFace]. split; [cbn; tauto |].
        unfold exec. rewrite onResults_empty. apply signals_showWarning.
      * rewrite onResults_single_signals.
        destruct ((xCenter a <? 0.3)%float || (0.7 <? xCenter a)%float
                  || (yCenter a <? 0.3)%float);
          destruct (0.75 <? yCenter a)%float; eexists; (split; [| reflexivity]);
          cbn; tauto.
      * exists [msg_MultipleFaces]. split; [cbn; tauto |].
        unfold exec. rewrite onResults_many. apply signals_showWarning.
    + exists [msg_NoFace]. split; [cbn; tauto |].
      unfold exec. rewrite onResults_undefined. apply signals_showWarning.
  - pose (Q := fun w' : World =>
                 sends w' = sends w /\ inflight w' = inflight w /\
                 listeners w' = listeners w /\ camera w' = camera w /\
                 liveStreams w' = liveStreams w /\ awaiting w' = awaiting w).
    assert (Hsw : forall msg, preserves Q (showWarning clock msg)).
    { intros msg w1 H1. unfold exec. rewrite showWarning_run. unfold Q in *.
      rewrite <- (sends_noted msg w1) in H1.
      destruct (3000 <? _); destruct w1; exact H1. }
    assert (HQ : preserves Q (onResults clock r)).
    { unfold onResults. destruct (detections r) as [ds |]; [| apply Hsw].
      destruct (List.length ds =? 0)%nat; [apply Hsw |].
      destruct (1 <? List.length ds)%nat; [apply Hsw |].
      destruct ds as [| face rest]; [apply preserves_ret |].
      apply preserves_bind; [| intros _]; apply preserves_when, Hsw. }
    apply HQ. unfold Q. repeat split.
Qed.

End QuietRectangle.

(** * The text cleaning of the pages *)

Section Strings.

Lemma JSString_eqb_eq (a b : JSString) : JSString_eqb a b = true <-> a = b.
Proof.
  revert b. induction a as [| x a IH]; intros [| y b]; cbn; split; intros H;
    try reflexivity; try discriminate.
  - apply andb_true_iff in H. destruct H as [Hx Hab].
    apply N.eqb_eq in Hx. apply IH in Hab. congruence.
  - injection H as -> ->. rewrite N.eqb_refl. apply IH. reflexivity.
Qed.

Lemma startsWith_spec (s p : JSString) :
  startsWith s p = true <-> exists b, s = p ++ b.
Proof.
  unfold startsWith. rewrite JSString_eqb_eq. split.
  - intros H. exists (skipn (List.length p) s).
    rewrite <- H at 1. symmetry. apply firstn_skipn.
  - intros [b ->]. rewrite firstn_app, Nat.sub_diag, firstn_all. cbn.
    apply app_nil_r.
Qed.

Lemma startsWith_tick (c : N) (rest : JSString) :
  startsWith (c :: rest) str_tick = (c =? backtick)%N.
Proof. unfold startsWith. cbn. apply andb_true_r. Qed.

(** The scan, one step at a time. *)
Lemma strip_fences_cons (c : N) (rest : JSString) :
  strip_fences (c :: rest) =
  if startsWith (c :: rest) str_json then strip_fences (skipn 3 rest)
  else if startsWith (c :: rest) str_fence then strip_fences (skipn 2 rest)
  else if (c =? backtick)%N then strip_fences rest
  else c :: strip_fences rest.
Proof.
  rewrite <- (startsWith_tick c rest). cbn [strip_fences].
  destruct (startsWith (c :: rest) str_json).
  - destruct rest as [| ? [| ? [| ? ?]]]; reflexivity.
  - destruct (startsWith (c :: rest) str_fence); [| reflexivity].
    destruct rest as [| ? [| ? ?]]; reflexivity.
Qed.

Lemma length_skipn_le {A} (n : nat) (l : list A) :
  (List.length (skipn n l) <= List.length l)%nat.
Proof. rewrite length_skipn. lia. Qed.

Lemma strip_fences_clean_bounded (n : nat) :
  forall s, (List.length s <= n)%nat ->
    ~ In backtick (strip_fences s) /\
    (List.length (strip_fences s) <= List.length s)%nat.
Proof.
  induction n as [| n IH]; intros s Hn.
  - destruct s; [cbn; split; [tauto | lia] | cbn in Hn; lia].
  - destruct s as [| c rest]; [cbn; split; [tauto | lia] |].
    cbn [List.length] in Hn. rewrite strip_fences_cons.
    assert (H3 := length_skipn_le 3 rest). assert (H2 := length_skipn_le 2 rest).
    destruct (startsWith (c :: rest) str_json).
    { destruct (IH (skipn 3 rest)) as [Hin Hlen]; [lia |].
      split; [exact Hin | cbn [List.length]; lia]. }
    destruct (startsWith (c :: rest) str_fence).
    { destruct (IH (skipn 2 rest)) as [Hin Hlen]; [lia |].
      split; [exact Hin | cbn [List.length]; lia]. }
    destruct (IH rest) as [Hin Hlen]; [lia |].
    destruct (N.eqb_spec c backtick) as [Hc | Hc].
    + split; [exact Hin | cbn [List.length]; lia].
    + split; [| cbn [List.length]; lia].
      intros [Heq | Hin']; [congruence | exact (Hin Hin')].
Qed.

Lemma strip_fences_clean (s : JSString) :
  ~ In backtick (strip_fences s) /\
  (List.length (strip_fences s) <= List.length s)%nat.
Proof. apply (strip_fences_clean_bounded (List.length s)). lia. Qed.

Lemma strip_fences_id (s : JSString) :
  ~ In backtick s -> ~ occurs str_json s -> strip_fences s = s.
Proof.
  induction s as [| c rest IH]; intros Htick Hjson; [reflexivity |].
  rewrite strip_fences_cons.
  destruct (startsWith (c :: rest) str_json) eqn:Hj.
  { exfalso. apply Hjson. apply startsWith_spec in Hj. destruct Hj as [b Hb].
    exists [], b. exact Hb. }
  destruct (startsWith (c :: rest) str_fence) eqn:Hf.
  { exfalso. apply Htick. apply startsWith_spec in Hf. destruct Hf as [b Hb].
    rewrite Hb. left. reflexivity. }
  destruct (N.eqb_spec c backtick) as [Hc | Hc].
  { exfalso. apply Htick. left. exact Hc. }
  f_equal. apply IH.
  - intros Hin. apply Htick. right. exact Hin.
  - intros (a & b & Hab). apply Hjson. exists (c :: a), b. rewrite Hab. reflexivity.
Qed.

Lemma length_trimStart (s : JSString) :
  (List.length (trimStart s) <= List.length s)%nat.
Proof.
  induction s as [| c rest IH]; [cbn; lia |].
  cbn [trimStart]. destruct (isWhiteSpace c); cbn [List.length]; lia.
Qed.

Lemma length_trim (s : JSString) : (List.length (trim s) <= List.length s)%nat.
Proof.
  unfold trim. rewrite length_rev.
  etransitivity; [apply length_trimStart |].
  rewrite length_rev. apply length_trimStart.
Qed.

Variable Json : Type.
Variable JSON_parse : JSString -> option Json.

(** X8. Whatever the AI service answers, the text that [cleanJsonResponse]
    hands to [JSON.parse] contains no backtick and is no longer than the
    answer; the function returns what the parser returns for that text and
    throws "Invalid JSON format" when the parser rejects it.  An answer
    with no backtick, no "json" and no white space around it is parsed
    as it is. *)
Theorem cleanJsonResponse_parses_stripped_text (responseText : JSString) :
  exists cleanText,
    ~ In backtick cleanText /\
    (List.length cleanText <= List.length responseText)%nat /\
    cleanJsonResponse Json JSON_parse responseText =
      match JSON_parse cleanText with
      | Some v => Returns v
      | None => Throws "Invalid JSON format"
      end /\
    (~ In backtick responseText -> ~ occurs str_json responseText ->
     trim responseText = responseText -> cleanText = responseText).
Proof.
  exists (strip_fences (trim responseText)).
  destruct (strip_fences_clean (trim responseText)) as [Hin Hlen].
  split; [exact Hin |].
  split; [etransitivity; [exact Hlen | apply length_trim] |].
  split; [reflexivity |].
  intros Htick Hjson Htrim. rewrite Htrim. apply strip_fences_id; assumption.
Qed.

End Strings.

Section Brackets.

Lemma indexOf_ge (s : JSString) (c : N) : -1 <= indexOf s c.
Proof.
  induction s as [| x rest IH]; cbn [indexOf]; [lia |].
  destruct (x =? c)%N; [lia |].
  destruct (Z.eqb_spec (indexOf rest c) (-1)); lia.
Qed.

Lemma indexOf_none (s : JSString) (c : N) : indexOf s c = -1 <-> ~ In c s.
Proof.
  induction s as [| x rest IH]; cbn [indexOf In]; [tauto |].
  assert (Hge := indexOf_ge rest c).
  destruct (N.eqb_spec x c) as [Hx | Hx].
  - split; [discriminate | intros H; exfalso; apply H; left; exact Hx].
  - destruct (Z.eqb_spec (indexOf rest c) (-1)) as [Hi | Hi].
    + split; [| reflexivity]. intros _ [H | H]; [congruence | tauto].
    + split; [lia |]. intros H. exfalso. apply Hi, IH. tauto.
Qed.

Lemma indexOf_first (pre rest : JSString) (c : N) :
  ~ In c pre -> indexOf (pre ++ c :: rest) c = Z.of_nat (List.length pre).
Proof.
  induction pre as [| x pre IH]; intros Hpre; cbn [app indexOf List.length].
  - rewrite N.eqb_refl. reflexivity.
  - destruct (N.eqb_spec x c) as [Hx | Hx]; [exfalso; apply Hpre; left; exact Hx |].
    rewrite IH by (intros H; apply Hpre; right; exact H).
    destruct (Z.eqb_spec (Z.of_nat (List.length pre)) (-1)); lia.
Qed.

Lemma lastIndexOf_ge (s : JSString) (c : N) : -1 <= lastIndexOf s c.
Proof.
  induction s as [| x rest IH]; cbn [lastIndexOf]; [lia |].
  destruct (Z.eqb_spec (lastIndexOf rest c) (-1)); [| lia].
  destruct (x =? c)%N; lia.
Qed.

Lemma lastIndexOf_none (s : JSString) (c : N) : lastIndexOf s c = -1 <-> ~ In c s.
Proof.
  induction s as [| x rest IH]; cbn [lastIndexOf In]; [tauto |].
  assert (Hge := lastIndexOf_ge rest c).
  destruct (Z.eqb_spec (lastIndexOf rest c) (-1)) as [Hi | Hi].
  - destruct (N.eqb_spec x c) as [Hx | Hx].
    + split; [discriminate | intros H; exfalso; apply H; left; exact Hx].
    + split; [| reflexivity]. intros _ [H | H]; [congruence | ].
      apply IH in Hi. tauto.
  - split; [lia |]. intros H. exfalso. apply Hi, IH. tauto.
Qed.

Lemma lastIndexOf_last (a post : JSString) (c : N) :
  ~ In c post -> lastIndexOf (a ++ c :: post) c = Z.of_nat (List.length a).
Proof.
  intros Hpost. induction a as [| x a IH]; cbn [app lastIndexOf List.length].
  - apply lastIndexOf_none in Hpost. rewrite Hpost, N.eqb_refl. reflexivity.
  - rewrite IH. destruct (Z.eqb_spec (Z.of_nat (List.length a)) (-1)); lia.
Qed.

Lemma slice_middle (pre mid post : JSString) :
  slice (pre ++ mid ++ post) (Z.of_nat (List.length pre))
    (Z.of_nat (List.length pre + List.length mid)) = mid.
Proof.
  unfold slice. rewrite !length_app.
  destruct (Z.ltb_spec (Z.of_nat (List.length pre)) 0); [lia |].
  destruct (Z.ltb_spec (Z.of_nat (List.length pre + List.length mid)) 0); [lia |].
  rewrite !Z.min_l by lia.
  replace (Z.to_nat (Z.of_nat (List.length pre + List.length mid) -
                     Z.of_nat (List.length pre))) with (List.length mid) by lia.
  rewrite Nat2Z.id, skipn_app, skipn_all, Nat.sub_diag. cbn [skipn app].
  rewrite firstn_app, Nat.sub_diag, firstn_all. cbn. apply app_nil_r.
Qed.

Lemma slice_empty (s : JSString) (from to : Z) :
  0 <= from -> 0 <= to -> to <= from -> slice s from to = [].
Proof.
  intros Hfrom Hto Hle. unfold slice.
  destruct (Z.ltb_spec from 0); [lia |].
  destruct (Z.ltb_spec to 0); [lia |].
  replace (Z.to_nat _) with 0%nat by lia. reflexivity.
Qed.

Variable Json : Type.
Variable JSON_parse : JSString -> option Json.

(** X9. When the AI answer has an opening bracket and, after it, a closing
    bracket, [cleanAiResponse] parses exactly the text from the first "["
    to the last "]", both included: whatever the service wrote before and
    after the array is dropped. *)
Theorem cleanAiResponse_extracts_array (pre mid post : JSString) :
  ~ In bracket_open pre ->
  ~ In bracket_close post ->
  cleanAiResponse Json JSON_parse
    (pre ++ [bracket_open] ++ mid ++ [bracket_close] ++ post) =
  match JSON_parse ([bracket_open] ++ mid ++ [bracket_close]) with
  | Some v => Returns v
  | None => Throws "SyntaxError"
  end.
Proof.
  intros Hpre Hpost. unfold cleanAiResponse.
  set (text := pre ++ [bracket_open] ++ mid ++ [bracket_close] ++ post).
  assert (Hs : indexOf text bracket_open = Z.of_nat (List.length pre))
    by exact (indexOf_first pre (mid ++ [bracket_close] ++ post) bracket_open Hpre).
  assert (He : lastIndexOf text bracket_close =
               Z.of_nat (List.length (pre ++ [bracket_open] ++ mid))).
  { replace text with ((pre ++ [bracket_open] ++ mid) ++ bracket_close :: post)
      by (unfold text; rewrite <- !app_assoc; reflexivity).
    apply lastIndexOf_last, Hpost. }
  assert (Hsl : slice text (Z.of_nat (List.length pre))
                  (Z.of_nat (List.length (pre ++ [bracket_open] ++ mid)) + 1) =
                [bracket_open] ++ mid ++ [bracket_close]).
  { replace text with (pre ++ ([bracket_open] ++ mid ++ [bracket_close]) ++ post)
      by (unfold text; rewrite <- !app_assoc; reflexivity).
    replace (Z.of_nat (List.length (pre ++ [bracket_open] ++ mid)) + 1)
      with (Z.of_nat (List.length pre +
                      List.length ([bracket_open] ++ mid ++ [bracket_close])))
      by (rewrite !length_app; cbn [List.length]; lia).
    apply slice_middle. }
  rewrite Hs, He, Hsl.
  destruct (Z.eqb_spec (Z.of_nat (List.length pre)) (-1)); [lia |].
  destruct (Z.eqb_spec (Z.of_nat (List.length (pre ++ [bracket_open] ++ mid))) (-1));
    [lia |].
  reflexivity.
Qed.

(** X10. [cleanAiResponse] throws "Invalid AI response" exactly when the answer
    has no "[" or no "]".  When every "]" comes before the first "[", it
    does not: the slice is empty and the empty text goes to the parser. *)
Theorem cleanAiResponse_rejection (text : JSString) :
  (cleanAiResponse Json JSON_parse text = Throws "Invalid AI response" <->
   ~ In bracket_open text \/ ~ In bracket_close text) /\
  (forall a b c,
     text = a ++ [bracket_close] ++ b ++ [bracket_open] ++ c ->
     ~ In bracket_open a -> ~ In bracket_open b ->
     ~ In bracket_close b -> ~ In bracket_close c ->
     cleanAiResponse Json JSON_parse text =
       match JSON_parse [] with
       | Some v => Returns v
       | None => Throws "SyntaxError"
       end).
Proof.
  split.
  - unfold cleanAiResponse.
    rewrite <- (indexOf_none text bracket_open), <- (lastIndexOf_none text bracket_close).
    destruct (Z.eqb_spec (indexOf text bracket_open) (-1)) as [Hs | Hs];
      destruct (Z.eqb_spec (lastIndexOf text bracket_close) (-1)) as [He | He];
      cbn [orb]; try tauto.
    split; [| tauto].
    destruct (JSON_parse _); discriminate.
  - intros a b c Htext Ha Hb Hb' Hc. unfold cleanAiResponse.
    assert (Hs : indexOf text bracket_open =
                 Z.of_nat (List.length (a ++ [bracket_close] ++ b))).
    { replace text with ((a ++ [bracket_close] ++ b) ++ bracket_open :: c)
        by (rewrite Htext, <- !app_assoc; reflexivity).
      apply indexOf_first.
      rewrite !in_app_iff. cbn [In]. unfold bracket_open, bracket_close in *.
      intros [H | [[H | []] | H]]; [tauto | discriminate H | tauto]. }
    assert (He : lastIndexOf text bracket_close = Z.of_nat (List.length a)).
    { replace text with (a ++ bracket_close :: (b ++ [bracket_open] ++ c))
        by (rewrite Htext; reflexivity).
      apply lastIndexOf_last.
      rewrite !in_app_iff. cbn [In]. unfold bracket_open, bracket_close in *.
      intros [H | [[H | []] | H]]; [tauto | discriminate H | tauto]. }
    rewrite Hs, He.
    destruct (Z.eqb_spec (Z.of_nat (List.length (a ++ [bracket_close] ++ b))) (-1));
      [lia |].
    destruct (Z.eqb_spec (Z.of_nat (List.length a)) (-1)); [lia |].
    cbn [orb].
    rewrite slice_empty; [reflexivity | lia | lia |].
    rewrite length_app. cbn [List.length app]. lia.
Qed.

End Brackets.

(** The theorem above on an answer wrapped in a sentence and a Markdown
    fence, with a parser that returns the text it is given. *)
Lemma cleanAiResponse_extracts_array_witness :
  cleanAiResponse JSString (fun t => Some t)
    (lit "Here you go: ```json [1, 2] ``` Enjoy!") =
  Returns (lit "[1, 2]").
Proof.
  apply (cleanAiResponse_extracts_array JSString (fun t => Some t)
           (lit "Here you go: ```json ") (lit "1, 2") (lit " ``` Enjoy!")).
  - vm_compute. intuition discriminate.
  - vm_compute. intuition discriminate.
Defined.

(** * The answer page *)

Section RecordAnswerProperties.

Import RecordAnswer.

Variable sendMessage : JSString -> option JSString.
Variable JSON_parse : JSString -> option AIResponse.
Variable getDocs_rejects : bool.
Variable addDoc_rejects : bool.
Variable props_question : Question.
Variable userId : option JSString.
Variable interviewId : option JSString.

(** X11. [generateResult] never throws and always switches the spinner flag
    off again.  It sends exactly one prompt; it returns what the parser
    makes of the stripped response and shows no toast when the service
    answers and the text parses, and in every other case returns the
    fallback with rating 0 after one error toast. *)
Theorem generateResult_falls_back (qst qstAns userAns : JSString) (p : Page) :
  let prompt := prompt_of qst qstAns userAns in
  let result := fst (generateResult sendMessage JSON_parse qst qstAns userAns p) in
  let p' := snd (generateResult sendMessage JSON_parse qst qstAns userAns p) in
  isAiGenerating p' = false /\
  prompts p' = prompts p ++ [prompt] /\
  userAnswers p' = userAnswers p /\
  aiResult p' = aiResult p /\
  match sendMessage prompt with
  | Some text =>
    match JSON_parse (strip_fences (trim text)) with
    | Some parsed => result = parsed /\ toasts p' = toasts p
    | None =>
      result = fallback /\
      toasts p' = toasts p ++ [mkToast ToastPlain "Error" "Error generating feedback."]
    end
  | None =>
    result = fallback /\
    toasts p' = toasts p ++ [mkToast ToastPlain "Error" "Error generating feedback."]
  end.
Proof.
  cbv zeta. unfold generateResult, cleanJsonResponse.
  destruct (sendMessage (prompt_of qst qstAns userAns)) as [text |].
  - destruct (JSON_parse (strip_fences (trim text))); destruct p;
      repeat split; reflexivity.
  - destruct p; repeat split; reflexivity.
Qed.

Lemma fallback_truthy : truthy fallback = true.
Proof. reflexivity. Qed.

(** X12. Stopping a recording with an answer shorter than 30 code units sends
    nothing to the AI service and leaves the stored result as it was: the
    page only stops the speech hook and shows the error toast.  With 30
    code units or more exactly one prompt is sent and [aiResult] becomes
    what [generateResult] returned: the value that the stripped answer of
    the service denotes, unchecked, or the fallback when the service or
    the parsing fails.  So [aiResult] is falsy afterwards exactly when the
    service's answer denotes a falsy value, as the text [null] does. *)
Theorem recordUserAnswer_needs_30 (p : Page) :
  let p' := recordUserAnswer sendMessage JSON_parse props_question true p in
  let prompt :=
    prompt_of (question props_question) (answer props_question) (userAnswer p) in
  speech p' = speech p ++ [stopSpeechToText] /\
  if (List.length (userAnswer p) <? 30)%nat then
    prompts p' = prompts p /\
    aiResult p' = aiResult p /\
    toasts p' = toasts p ++
      [mkToast ToastError "Error" "Your answer should be more than 30 characters"]
  else
    prompts p' = prompts p ++ [prompt] /\
    isAiGenerating p' = false /\
    aiResult p' =
      match sendMessage prompt with
      | Some text =>
        match JSON_parse (strip_fences (trim text)) with
        | Some parsed => parsed
        | None => fallback
        end
      | None => fallback
      end /\
    (truthy (aiResult p') = false <->
     exists text parsed,
       sendMessage prompt = Some text /\
       JSON_parse (strip_fences (trim text)) = Some parsed /\
       truthy parsed = false).
Proof.
  cbv zeta. unfold recordUserAnswer.
  destruct (List.length (userAnswer p) <? 30)%nat.
  - destruct p; cbn; auto.
  - unfold generateResult, cleanJsonResponse.
    destruct (sendMessage _) as [text |] eqn:Hsend;
      [destruct (JSON_parse (strip_fences (trim text))) as [parsed |] eqn:Hparse |].
    + split; [destruct p; reflexivity |]. split; [destruct p; reflexivity |].
      split; [destruct p; reflexivity |]. split; [destruct p; reflexivity |].
      replace (aiResult _) with parsed by (destruct p; reflexivity).
      split.
      * intros Hfalsy. exists text, parsed. auto.
      * intros (text' & parsed' & Ht & Hp & Hfalsy).
        injection Ht as <-. rewrite Hparse in Hp. injection Hp as <-.
        exact Hfalsy.
    + split; [destruct p; reflexivity |]. split; [destruct p; reflexivity |].
      split; [destruct p; reflexivity |]. split; [destruct p; reflexivity |].
      replace (aiResult _) with fallback by (destruct p; reflexivity).
      split; [rewrite fallback_truthy; discriminate |].
      intros (text' & parsed' & Ht & Hp & _).
      injection Ht as <-. rewrite Hparse in Hp. discriminate Hp.
    + split; [destruct p; reflexivity |]. split; [destruct p; reflexivity |].
      split; [destruct p; reflexivity |]. split; [destruct p; reflexivity |].
      replace (aiResult _) with fallback by (destruct p; reflexivity).
      split; [rewrite fallback_truthy; discriminate |].
      intros (text' & parsed' & Ht & _). discriminate Ht.
Qed.

(** X13. Confirming a save while [aiResult] is [null], or falsy in another
    way, leaves the page loading: [saveUserAnswer] returns before its [try],
    so nothing switches [loading] off, nothing is stored and the dialog
    stays as it was.  The "Save Result" button does not prevent it: it is
    enabled on every page, and its click opens the dialog. *)
Theorem saveUserAnswer_without_result (p : Page) :
  truthy (aiResult p) = false ->
  let p' := saveUserAnswer getDocs_rejects addDoc_rejects props_question
              userId interviewId p in
  p' = setLoading true p /\
  loading p' = true /\
  userAnswers p' = userAnswers p /\
  button_disabled (saveButton p) = false /\
  button_onClick (saveButton p) = Some (setOpen true) /\
  loading (saveUserAnswer getDocs_rejects addDoc_rejects props_question
             userId interviewId (setOpen true p)) = true /\
  open (saveUserAnswer getDocs_rejects addDoc_rejects props_question
          userId interviewId (setOpen true p)) = true.
Proof.
  intros Hnone. cbv zeta. unfold saveUserAnswer.
  replace (aiResult (setOpen true p)) with (aiResult p) by (destruct p; reflexivity).
  rewrite Hnone. destruct p; cbn. repeat split.
Qed.

Lemma option_JSString_eqb_refl (a : option JSString) :
  option_JSString_eqb a a = true.
Proof. destruct a as [x |]; [apply JSString_eqb_eq |]; reflexivity. Qed.

Lemma userAnswerQuery_app (a b : list AnswerDoc) :
  userAnswerQuery props_question userId (a ++ b) =
  userAnswerQuery props_question userId a ++ userAnswerQuery props_question userId b.
Proof. apply filter_app. Qed.

(** X14. With a truthy AI result, [saveUserAnswer] always ends with [loading]
    off and the dialog closed.  It stores at most one document, and none
    when the user already has an answer to this question or a service
    rejects; when it stores one, the document carries the answer and what
    the reads of [feedback] and [ratings] on the result give, and the
    answer box is emptied.  It never makes a second document for the same
    user and question when it runs to its end undisturbed. *)
Theorem saveUserAnswer_with_result (result : AIResponse) (p : Page) :
  aiResult p = result ->
  truthy result = true ->
  let p' := saveUserAnswer getDocs_rejects addDoc_rejects props_question
              userId interviewId p in
  let document :=
    mkAnswerDoc interviewId (question props_question) (answer props_question)
      (userAnswer p) (feedback result) (ratings result) userId in
  loading p' = false /\
  open p' = false /\
  (if getDocs_rejects then userAnswers p' = userAnswers p
   else
     match userAnswerQuery props_question userId (userAnswers p) with
     | _ :: _ =>
       userAnswers p' = userAnswers p /\
       toasts p' = toasts p ++
         [mkToast ToastInfo "Already Answered"
            "You have already answered this question"]
     | [] =>
       if addDoc_rejects then userAnswers p' = userAnswers p
       else userAnswers p' = userAnswers p ++ [document] /\ userAnswer p' = []
     end) /\
  ((List.length (userAnswerQuery props_question userId (userAnswers p)) <= 1)%nat ->
   (List.length (userAnswerQuery props_question userId (userAnswers p')) <= 1)%nat).
Proof.
  intros Hres Htruthy. cbv zeta. unfold saveUserAnswer. rewrite Hres, Htruthy.
  cbn [negb].
  replace (userAnswers (setLoading true p)) with (userAnswers p)
    by (destruct p; reflexivity).
  destruct getDocs_rejects.
  { destruct p; cbn. repeat split. auto. }
  destruct (userAnswerQuery props_question userId (userAnswers p)) as [| d ds] eqn:Hq.
  - destruct addDoc_rejects.
    + destruct p; cbn in *. rewrite Hq. repeat split. auto.
    + split; [destruct p; reflexivity |].
      split; [destruct p; reflexivity |].
      split; [destruct p; cbn; auto |].
      intros _.
      replace (userAnswers _) with
        (userAnswers p ++
         [mkAnswerDoc interviewId (question props_question) (answer props_question)
            (userAnswer p) (feedback result) (ratings result) userId])
        by (destruct p; reflexivity).
      rewrite userAnswerQuery_app, Hq. cbn.
      rewrite option_JSString_eqb_refl.
      replace (JSString_eqb (question props_question) (question props_question))
        with true by (symmetry; apply JSString_eqb_eq; reflexivity).
      cbn. lia.
  - destruct p; cbn in *. rewrite Hq. repeat split. auto.
Qed.

(** X15. The answer shown is the transcripts of the result objects among the
    speech results, in their order, with one space between neighbours: no
    result gives the empty answer, one transcript is the answer as it is, a
    plain string of the hook's legacy mode is left out wherever it stands,
    and two neighbouring transcripts are joined by exactly one space.  The
    four equations determine the answer for every list of results. *)
Theorem combineTranscripts_joins (a b : list SpeechResult)
    (s t u : JSString) :
  combineTranscripts [] = [] /\
  combineTranscripts [ResultType t] = t /\
  combineTranscripts (a ++ LegacyResult s :: b) = combineTranscripts (a ++ b) /\
  combineTranscripts (a ++ ResultType t :: ResultType u :: b) =
    combineTranscripts (a ++ [ResultType t]) ++ lit " " ++
    combineTranscripts (ResultType u :: b).
Proof.
  unfold combineTranscripts.
  split; [reflexivity |]. split; [reflexivity |].
  split; [rewrite !flat_map_app; reflexivity |].
  rewrite !flat_map_app. cbn [flat_map app].
  induction (flat_map _ a) as [| x xs IH].
  - cbn [app join]. destruct (flat_map _ b); reflexivity.
  - destruct xs as [| y ys].
    + cbn [app join] in *. rewrite <- !app_assoc. reflexivity.
    + cbn [app join] in *. rewrite IH, <- !app_assoc. reflexivity.
Qed.

End RecordAnswerProperties.

(** * The question tabs *)

Section QuestionSectionProperties.

Import RecordAnswer QuestionSection.

Lemma nth_error_middle {A} (done todo : list A) (q : A) :
  nth_error (done ++ q :: todo) (List.length done) = Some q.
Proof. rewrite nth_error_app2, Nat.sub_diag by lia. reflexivity. Qed.

(** One answer while a question is left after the active one. *)
Lemma handleNextQuestion_next (done todo : list Question) (q q' : Question)
    (a : JSString) (s : State) :
  activeIndex s = List.length done ->
  handleNextQuestion (done ++ q :: q' :: todo) a s =
  (Normal tt,
   mkState (isPlaying s) (List.length done + 1) false
     (Z.of_nat (List.length done))
     (allAnswers s ++ [mkQuestion (question q) a])
     (S (cancels s)) (navigations s)).
Proof.
  intros Hact. unfold handleNextQuestion.
  rewrite Hact, nth_error_middle, length_app. cbn [List.length].
  destruct (Z.ltb_spec (Z.of_nat (List.length done))
              (Z.of_nat (List.length done + S (S (List.length todo))) - 1));
    [reflexivity | lia].
Qed.

(** The answer to the last question. *)
Lemma handleNextQuestion_last (done : list Question) (q : Question)
    (a : JSString) (s : State) :
  activeIndex s = List.length done ->
  handleNextQuestion (done ++ [q]) a s =
  (Normal tt,
   mkState (isPlaying s) (List.length done) false
     (Z.of_nat (List.length done))
     (allAnswers s ++ [mkQuestion (question q) a])
     (S (cancels s))
     (navigations s ++
      [("/generate/feedback/demo", allAnswers s ++ [mkQuestion (question q) a])])).
Proof.
  intros Hact. unfold handleNextQuestion.
  rewrite Hact, nth_error_middle, length_app. cbn [List.length].
  destruct (Z.ltb_spec (Z.of_nat (List.length done))
              (Z.of_nat (List.length done + 1) - 1)); [lia | reflexivity].
Qed.

(** Answers submitted in order from the question at [activeIndex]: as long
    as a question is left afterwards the tab moves on, the last answer
    navigates. *)
Lemma submitAll_from (todo : list Question) :
  forall (done : list Question) (answers : list JSString) (s : State),
    (List.length answers <= List.length todo)%nat ->
    activeIndex s = List.length done ->
    let r := submitAll (done ++ todo) answers s in
    fst r = Normal tt /\
    allAnswers (snd r) = allAnswers s ++ paired todo answers /\
    (answers <> [] ->
     completedIndex (snd r) =
       Z.of_nat (List.length done + List.length answers) - 1) /\
    if (List.length answers <? List.length todo)%nat then
      activeIndex (snd r) = (List.length done + List.length answers)%nat /\
      navigations (snd r) = navigations s
    else
      (todo <> [] ->
       activeIndex (snd r) = (List.length done + List.length todo - 1)%nat /\
       navigations (snd r) =
         navigations s ++
         [("/generate/feedback/demo", allAnswers s ++ paired todo answers)]).
Proof.
  induction todo as [| q todo IH]; intros done answers s Hlen Hact; cbv zeta.
  - destruct answers; [| cbn in Hlen; lia]. cbn.
    rewrite app_nil_r. repeat split; tauto.
  - destruct answers as [| a rest].
    + cbn. rewrite app_nil_r, Nat.add_0_r. repeat split; tauto.
    + cbn [List.length] in Hlen. cbn [submitAll paired].
      destruct todo as [| q' todo].
      * destruct rest; [| cbn in Hlen; lia].
        rewrite (handleNextQuestion_last done q a s Hact). cbn.
        repeat split; try lia.
      * rewrite (handleNextQuestion_next done todo q q' a s Hact).
        set (s' := mkState (isPlaying s) (List.length done + 1) false
                     (Z.of_nat (List.length done))
                     (allAnswers s ++ [mkQuestion (question q) a])
                     (S (cancels s)) (navigations s)).
        assert (Hact' : activeIndex s' = List.length (done ++ [q]))
          by (rewrite length_app; reflexivity).
        specialize (IH (done ++ [q]) rest s' ltac:(lia) Hact').
        cbv zeta in IH. rewrite <- app_assoc in IH.
        change ([q] ++ q' :: todo) with (q :: q' :: todo) in IH.
        destruct IH as (Hn & Hall & Hcomp & Hnav).
        rewrite length_app in Hcomp, Hnav. cbn [List.length] in Hcomp, Hnav.
        subst s'. cbn [allAnswers navigations] in Hall, Hnav.
        split; [exact Hn |].
        split; [rewrite Hall, <- app_assoc; reflexivity |].
        split.
        { intros _. destruct rest as [| b rest'].
          - cbn. lia.
          - rewrite Hcomp by discriminate. cbn [List.length]. lia. }
        cbn [List.length] in Hnav |- *.
        change (S (List.length rest) <? S (S (List.length todo)))%nat
          with (List.length rest <? S (List.length todo))%nat.
        revert Hnav.
        destruct (List.length rest <? S (List.length todo))%nat; intros Hnav.
        { destruct Hnav as [Ha Hv]. split; [rewrite Ha; lia | exact Hv]. }
        intros _. destruct Hnav as [Ha Hv]; [discriminate |].
        split; [rewrite Ha; lia |].
        rewrite Hv, <- app_assoc. reflexivity.
Qed.

(** X16. Answering every question once, in order, from the first render: no
    exception, the tab ends on the last question, and there is exactly one
    navigation, to the feedback page, carrying every question with the
    answer given to it, in order. *)
Theorem all_answers_reach_feedback (questions : list Question)
    (answers : list JSString) :
  questions <> [] ->
  List.length answers = List.length questions ->
  let r := submitAll questions answers initialState in
  fst r = Normal tt /\
  navigations (snd r) = [("/generate/feedback/demo", paired questions answers)] /\
  allAnswers (snd r) = paired questions answers /\
  activeIndex (snd r) = (List.length questions - 1)%nat /\
  completedIndex (snd r) = Z.of_nat (List.length questions) - 1.
Proof.
  intros Hne Hlen. cbv zeta.
  destruct (submitAll_from questions [] answers initialState)
    as (Hn & Hall & Hcomp & Hnav); [lia | reflexivity |].
  cbn [app List.length Nat.add allAnswers navigations initialState] in *.
  rewrite Hlen, Nat.ltb_irrefl in Hnav. destruct (Hnav Hne) as [Ha Hv].
  split; [exact Hn |]. split; [exact Hv |]. split; [exact Hall |].
  split; [exact Ha |].
  rewrite Hcomp, Hlen; [reflexivity |].
  destruct answers; [| discriminate].
  destruct questions; [congruence | discriminate].
Qed.

(** X17. While questions are left, nothing navigates: after the first [k]
    answers the active tab is question [k], and the tabs rendered are
    exactly those of the questions up to [k]. *)
Theorem tabs_unlock_one_by_one (questions : list Question)
    (answers : list JSString) (i : nat) :
  (List.length answers < List.length questions)%nat ->
  let r := submitAll questions answers initialState in
  fst r = Normal tt /\
  navigations (snd r) = [] /\
  activeIndex (snd r) = List.length answers /\
  tabShown (snd r) i = (i <=? List.length answers)%nat.
Proof.
  intros Hlen. cbv zeta.
  destruct (submitAll_from questions [] answers initialState)
    as (Hn & _ & Hcomp & Hnav); [lia | reflexivity |].
  cbn [app List.length Nat.add navigations initialState] in *.
  destruct (Nat.ltb_spec (List.length answers) (List.length questions)); [| lia].
  destruct Hnav as [Ha Hv].
  split; [exact Hn |]. split; [exact Hv |]. split; [exact Ha |].
  unfold tabShown.
  destruct answers as [| a rest].
  - cbn. destruct i; cbn; [reflexivity |].
    destruct (Z.ltb_spec 0 (Z.pos (Pos.of_succ_nat i))); [reflexivity | lia].
  - rewrite Hcomp by discriminate.
    destruct (Z.ltb_spec (Z.of_nat (List.length (a :: rest)) - 1 + 1) (Z.of_nat i));
      destruct (Nat.leb_spec i (List.length (a :: rest))); cbn; try reflexivity; lia.
Qed.

(** X18. Going back to the tab of an earlier question and answering it again
    sets [completedIndex] back to that question, whatever had been
    completed before, so the tabs after the next one disappear again, and
    the list of answers gets one more entry: the earlier answer to the
    question stays in it. *)
Theorem answering_again_goes_back (questions : list Question)
    (answer : JSString) (q : Question) (i j : nat) (s : State) :
  nth_error questions i = Some q ->
  (i + 1 < List.length questions)%nat ->
  let r := handleNextQuestion questions answer (selectTab i s) in
  fst r = Normal tt /\
  completedIndex (snd r) = Z.of_nat i /\
  activeIndex (snd r) = (i + 1)%nat /\
  tabShown (snd r) j = (j <=? i + 1)%nat /\
  allAnswers (snd r) = allAnswers s ++ [mkQuestion (question q) answer] /\
  navigations (snd r) = navigations s.
Proof.
  intros Hq Hi. cbv zeta. unfold handleNextQuestion, selectTab.
  cbn [activeIndex]. rewrite Hq.
  destruct (Z.ltb_spec (Z.of_nat i) (Z.of_nat (List.length questions) - 1)); [| lia].
  cbn. repeat split. unfold tabShown. cbn.
  destruct (Z.ltb_spec (Z.of_nat i + 1) (Z.of_nat j));
    destruct (Nat.leb_spec j (i + 1)); cbn; try reflexivity; lia.
Qed.

End QuestionSectionProperties.

(** ** Runs of the answer page and of the question tabs *)

(** Confirming the dialog on a fresh page, where no result exists yet. *)
Lemma saveUserAnswer_without_result_witness :
  let q := RecordAnswer.mkQuestion (lit "What is a closure?") (lit "A function") in
  let p := RecordAnswer.mkPage [] false JSNull false false [] [] [] [] in
  RecordAnswer.loading
    (RecordAnswer.saveUserAnswer false false q (Some (lit "user_1"))
       (Some (lit "interview_1")) (RecordAnswer.setOpen true p)) = true.
Proof.
  cbv zeta.
  destruct (saveUserAnswer_without_result false false
              (RecordAnswer.mkQuestion (lit "What is a closure?") (lit "A function"))
              (Some (lit "user_1")) (Some (lit "interview_1"))
              (RecordAnswer.mkPage [] false JSNull false false [] [] [] [])
              eq_refl) as (_ & _ & _ & _ & _ & Hloading & _).
  exact Hloading.
Defined.

(** Saving a rated answer on an empty collection, then saving again: one
    document in the end, with the feedback and the rating of the result. *)
Lemma saveUserAnswer_with_result_witness :
  let q := RecordAnswer.mkQuestion (lit "What is a closure?") (lit "A function") in
  let r := RecordAnswer.mkAIResponse 7 (lit "Good") in
  let p := RecordAnswer.mkPage (lit "It captures variables") false r true
             false [] [] [] [] in
  let save := RecordAnswer.saveUserAnswer false false q (Some (lit "user_1"))
                (Some (lit "interview_1")) in
  RecordAnswer.loading (save p) = false /\
  RecordAnswer.open (save p) = false /\
  map RecordAnswer.doc_feedback (RecordAnswer.userAnswers (save p)) =
    [Some (JSText (lit "Good"))] /\
  map RecordAnswer.rating (RecordAnswer.userAnswers (save p)) =
    [Some (JSNumber 7)] /\
  List.length
    (RecordAnswer.userAnswers
       (save (RecordAnswer.setAiResult r (save p)))) = 1%nat.
Proof.
  cbv zeta.
  destruct (saveUserAnswer_with_result false false
              (RecordAnswer.mkQuestion (lit "What is a closure?") (lit "A function"))
              (Some (lit "user_1")) (Some (lit "interview_1"))
              (RecordAnswer.mkAIResponse 7 (lit "Good"))
              (RecordAnswer.mkPage (lit "It captures variables") false
                 (RecordAnswer.mkAIResponse 7 (lit "Good")) true false
                 [] [] [] [])
              eq_refl eq_refl) as (Hloading & Hopen & _ & _).
  split; [exact Hloading |]. split; [exact Hopen |].
  repeat split; vm_compute; reflexivity.
Defined.

(** The service answers [null]: a text that parses, so no fallback is
    taken, [aiResult] stays [null], and confirming the save dialog leaves
    the page loading. *)
Example null_answer_is_stored :
  let q := RecordAnswer.mkQuestion (lit "What is a closure?") (lit "A function") in
  let parse := fun t : JSString =>
                 if JSString_eqb t (lit "null") then Some JSNull else None in
  let p := RecordAnswer.mkPage
             (lit "A closure is a function with its captured variables")
             false JSNull false false [] [] [] [] in
  let p' := RecordAnswer.recordUserAnswer
              (fun _ => Some (lit "```null```")) parse q true p in
  RecordAnswer.aiResult p' = JSNull /\
  RecordAnswer.toasts p' = [] /\
  RecordAnswer.loading
    (RecordAnswer.saveUserAnswer false false q (Some (lit "user_1"))
       (Some (lit "interview_1")) (RecordAnswer.setOpen true p')) = true.
Proof. cbv zeta. vm_compute. repeat split. Qed.

(** Three questions answered in order. *)
Lemma all_answers_reach_feedback_witness :
  let qs := [RecordAnswer.mkQuestion (lit "Q1") (lit "A1");
             RecordAnswer.mkQuestion (lit "Q2") (lit "A2");
             RecordAnswer.mkQuestion (lit "Q3") (lit "A3")] in
  let answers := [lit "first"; lit "second"; lit "third"] in
  QuestionSection.navigations
    (snd (QuestionSection.submitAll qs answers QuestionSection.initialState)) =
  [("/generate/feedback/demo",
    [RecordAnswer.mkQuestion (lit "Q1") (lit "first");
     RecordAnswer.mkQuestion (lit "Q2") (lit "second");
     RecordAnswer.mkQuestion (lit "Q3") (lit "third")])].
Proof.
  cbv zeta.
  destruct (all_answers_reach_feedback
              [RecordAnswer.mkQuestion (lit "Q1") (lit "A1");
               RecordAnswer.mkQuestion (lit "Q2") (lit "A2");
               RecordAnswer.mkQuestion (lit "Q3") (lit "A3")]
              [lit "first"; lit "second"; lit "third"]
              ltac:(discriminate) eq_refl) as (_ & Hnav & _).
  exact Hnav.
Defined.

(** After the first of three answers, the tabs of questions 1 and 2 are
    rendered and the tab of question 3 is not. *)
Lemma tabs_unlock_one_by_one_witness :
  let qs := [RecordAnswer.mkQuestion (lit "Q1") (lit "A1");
             RecordAnswer.mkQuestion (lit "Q2") (lit "A2");
             RecordAnswer.mkQuestion (lit "Q3") (lit "A3")] in
  let s := snd (QuestionSection.submitAll qs [lit "first"]
                  QuestionSection.initialState) in
  QuestionSection.tabShown s 1 = true /\ QuestionSection.tabShown s 2 = false.
Proof.
  cbv zeta. split.
  - destruct (tabs_unlock_one_by_one
                [RecordAnswer.mkQuestion (lit "Q1") (lit "A1");
                 RecordAnswer.mkQuestion (lit "Q2") (lit "A2");
                 RecordAnswer.mkQuestion (lit "Q3") (lit "A3")]
                [lit "first"] 1 ltac:(cbn; lia)) as (_ & _ & _ & Htab).
    exact Htab.
  - destruct (tabs_unlock_one_by_one
                [RecordAnswer.mkQuestion (lit "Q1") (lit "A1");
                 RecordAnswer.mkQuestion (lit "Q2") (lit "A2");
                 RecordAnswer.mkQuestion (lit "Q3") (lit "A3")]
                [lit "first"] 2 ltac:(cbn; lia)) as (_ & _ & _ & Htab).
    exact Htab.
Defined.

(** With two of three questions answered, going back to the first and
    answering it again: the third tab, which was rendered, is not any
    more, and three answers are kept. *)
Lemma answering_again_goes_back_witness :
  let qs := [RecordAnswer.mkQuestion (lit "Q1") (lit "A1");
             RecordAnswer.mkQuestion (lit "Q2") (lit "A2");
             RecordAnswer.mkQuestion (lit "Q3") (lit "A3");
             RecordAnswer.mkQuestion (lit "Q4") (lit "A4")] in
  let s := snd (QuestionSection.submitAll qs [lit "first"; lit "second"]
                  QuestionSection.initialState) in
  let s' := snd (QuestionSection.handleNextQuestion qs (lit "again")
                   (QuestionSection.selectTab 0 s)) in
  QuestionSection.tabShown s 2 = true /\
  QuestionSection.tabShown s' 2 = false /\
  List.length (QuestionSection.allAnswers s') = 3%nat.
Proof.
  cbv zeta. split; [vm_compute; reflexivity |].
  destruct (answering_again_goes_back
              [RecordAnswer.mkQuestion (lit "Q1") (lit "A1");
               RecordAnswer.mkQuestion (lit "Q2") (lit "A2");
               RecordAnswer.mkQuestion (lit "Q3") (lit "A3");
               RecordAnswer.mkQuestion (lit "Q4") (lit "A4")]
              (lit "again") (RecordAnswer.mkQuestion (lit "Q1") (lit "A1")) 0 2
              (snd (QuestionSection.submitAll
                      [RecordAnswer.mkQuestion (lit "Q1") (lit "A1");
                       RecordAnswer.mkQuestion (lit "Q2") (lit "A2");
                       RecordAnswer.mkQuestion (lit "Q3") (lit "A3");
                       RecordAnswer.mkQuestion (lit "Q4") (lit "A4")]
                      [lit "first"; lit "second"] QuestionSection.initialState))
              eq_refl ltac:(cbn; lia)) as (_ & _ & _ & Htab & Hall & _).
  split; [exact Htab |].
  rewrite Hall. vm_compute. reflexivity.
Defined.

(** * The interview form *)

Section FormMockInterviewProperties.

Import FormMockInterview.

Variable Json : Type.
Variable sendMessage : JSString -> option JSString.
Variable JSON_parse : JSString -> option Json.
Variable write_rejects : bool.
Variable new_id : JSString.
Variable initialData : option (Interview Json).
Variable userId : option JSString.
Variable show_number : float -> JSString.

Lemma updateDoc_keeps (target : JSString) (d : FormData) (qs : Json)
    (docs : list (Interview Json)) :
  map id (updateDoc Json target d qs docs) = map id docs /\
  map interview_userId (updateDoc Json target d qs docs) =
    map interview_userId docs.
Proof.
  unfold updateDoc. rewrite !map_map. split; apply map_ext; intros i;
    destruct (JSString_eqb (id i) target); reflexivity.
Qed.

(** X19. Submitting the form changes the [interviews] collection only when the
    user is signed in, the AI service answered, its answer held a
    bracketed array that parsed, and the store accepted the write; then the
    page goes to the list.  In every other case the collection is as it
    was and nothing navigates to the list.  Without a user no prompt is
    sent at all; with one, exactly one prompt is sent and [loading] is off
    at the end.  Editing keeps the ids and the owners of all documents;
    creating appends one document owned by the user. *)
Theorem onSubmit_writes_only_parsed_questions (d : FormData) (p : Page Json) :
  let submit := onSubmit Json sendMessage JSON_parse write_rejects new_id
                  initialData userId show_number in
  let prompt := prompt_of show_number d in
  let p' := submit d p in
  if isSignedIn userId then
    loading p' = false /\
    prompts p' = prompts p ++ [prompt] /\
    ((interviews p' = interviews p /\ navigations p' = navigations p /\
      toasts p' = toasts p ++ [(ToastPlain, "Generating AI questions...");
                               (ToastError, "Something went wrong")])
     \/
     (exists text qs,
        sendMessage prompt = Some text /\
        cleanAiResponse Json JSON_parse text = Returns qs /\
        write_rejects = false /\
        navigations p' = navigations p ++ ["/generate"] /\
        match initialData with
        | Some i =>
          interviews p' = updateDoc Json (id i) d qs (interviews p) /\
          map id (interviews p') = map id (interviews p) /\
          map interview_userId (interviews p') =
            map interview_userId (interviews p)
        | None =>
          interviews p' = interviews p ++ [mkInterview new_id d userId qs]
        end))
  else
    p' = navigate Json "/sign-in" (toast Json ToastError "Please login first" p) /\
    prompts p' = prompts p /\
    interviews p' = interviews p /\
    loading p' = loading p.
Proof.
  cbv zeta. unfold onSubmit.
  destruct (isSignedIn userId); cbn [negb].
  2:{ destruct p; repeat split. }
  unfold generateQuestions.
  destruct (sendMessage (prompt_of show_number d)) as [text |] eqn:Hsend.
  2:{ destruct p; cbn. repeat split. left. repeat split.
      rewrite <- app_assoc. reflexivity. }
  destruct (cleanAiResponse Json JSON_parse text) as [qs | msg] eqn:Hclean.
  2:{ destruct p; cbn. repeat split. left. repeat split.
      rewrite <- app_assoc. reflexivity. }
  destruct write_rejects eqn:Hw.
  { destruct p; cbn. repeat split. left. repeat split.
    rewrite <- app_assoc. reflexivity. }
  destruct initialData as [i |].
  - replace (interviews _) with (interviews p) by (destruct p; reflexivity).
    destruct (existsb (fun j => JSString_eqb (id j) (id i)) (interviews p)).
    + split; [destruct p; reflexivity |].
      split; [destruct p; reflexivity |].
      right. exists text, qs.
      destruct (updateDoc_keeps (id i) d qs (interviews p)) as [Hid Hown].
      split; [reflexivity |]. split; [exact Hclean |]. split; [reflexivity |].
      split; [destruct p; reflexivity |].
      split; [destruct p; reflexivity |].
      split; [destruct p; exact Hid | destruct p; exact Hown].
    + destruct p; cbn. repeat split. left. repeat split.
      rewrite <- app_assoc. reflexivity.
  - split; [destruct p; reflexivity |].
    split; [destruct p; reflexivity |].
    right. exists text, qs.
    split; [reflexivity |]. split; [exact Hclean |]. split; [reflexivity |].
    split; destruct p; reflexivity.
Qed.

End FormMockInterviewProperties.

(** * The two copies of the monitor *)

Section Copies.

Variable clock : nat -> Z.
Variable throws : ReleaseCall -> bool.

Ltac same :=
  match goal with
  | H : same_core ?w1 ?w2 |- _ =>
    destruct w1 as [wa1 cam1 lt1 [rs1 vw1 so1] ra1 hid1 fs1 ls1 lv1 aw1 inf1 tk1 h1];
    destruct w2 as [wa2 cam2 lt2 [rs2 vw2 so2] ra2 hid2 fs2 ls2 lv2 aw2 inf2 tk2 h2];
    unfold same_core, core in H; cbn in H; injection H; intros; subst
  end.

Lemma respects_ret {A} (a : A) : respects (ret a).
Proof. intros w1 w2 H. split; [reflexivity | exact H]. Qed.

Lemma respects_throw {A} : respects (@throw A).
Proof. intros w1 w2 H. split; [reflexivity | exact H]. Qed.

Lemma respects_bind {A B} (m : JS A) (k : A -> JS B) :
  respects m -> (forall a, respects (k a)) -> respects (bind m k).
Proof.
  intros Hm Hk w1 w2 H. destruct (Hm w1 w2 H) as [Hr Hs]. unfold bind.
  destruct (m w1) as [[a1 |] u1], (m w2) as [[a2 |] u2]; cbn [fst snd] in *;
    try discriminate.
  - injection Hr as ->. apply Hk, Hs.
  - split; [reflexivity | exact Hs].
Qed.

Lemma respects_when (c : bool) (m : JS unit) : respects m -> respects (when c m).
Proof. intros Hm. destruct c; [exact Hm | apply respects_ret]. Qed.

Lemma respects_try_catch (m h : JS unit) :
  respects m -> respects h -> respects (try_catch m h).
Proof.
  intros Hm Hh w1 w2 H. destruct (Hm w1 w2 H) as [Hr Hs]. unfold try_catch.
  destruct (m w1) as [[a1 |] u1], (m w2) as [[a2 |] u2]; cbn [fst snd] in *;
    try discriminate.
  - split; [exact Hr | exact Hs].
  - apply Hh, Hs.
Qed.

Lemma respects_gets {A} (f : World -> A) :
  (forall w1 w2, same_core w1 w2 -> f w1 = f w2) -> respects (gets f).
Proof.
  intros Hf w1 w2 H. unfold gets. cbn. split; [f_equal; apply Hf, H | exact H].
Qed.

Lemma respects_modify (f : World -> World) :
  (forall w1 w2, same_core w1 w2 -> same_core (f w1) (f w2)) -> respects (modify f).
Proof. intros Hf w1 w2 H. unfold modify. cbn. split; [reflexivity | apply Hf, H]. Qed.

Ltac agree :=
  repeat first
    [ apply respects_ret
    | apply respects_throw
    | apply respects_when
    | apply respects_try_catch
    | apply respects_gets; let H := fresh "H" in intros ? ? H; same; reflexivity
    | apply respects_modify; let H := fresh "H" in intros ? ? H; same;
      cbv beta; cbn [listeners];
      repeat match goal with
             | |- context [if ?b then _ else _] => destruct b
             end; reflexivity
    | apply respects_bind; [| intros ?] ].

Lemma respects_showWarning (msg : string) : respects (showWarning clock msg).
Proof.
  unfold showWarning, record, Date_now, setWarning.
  apply respects_bind; [agree | intros _].
  apply respects_bind.
  { intros w1 w2 H. split; [same; reflexivity | same; reflexivity]. }
  intros now. apply respects_bind; [agree | intros last].
  destruct (3000 <? now - last); agree.
Qed.

Lemma respects_onResults (r : Results) : respects (onResults clock r).
Proof.
  unfold onResults. destruct (detections r) as [ds |];
    [| apply respects_showWarning].
  destruct (List.length ds =? 0)%nat; [apply respects_showWarning |].
  destruct (1 <? List.length ds)%nat; [apply respects_showWarning |].
  destruct ds as [| face rest]; [agree |].
  apply respects_bind; [| intros _]; apply respects_when, respects_showWarning.
Qed.

(** [onFrame] reads the video element only for its readiness. *)
Lemma respects_onFrame : respects (onFrame clock).
Proof.
  intros w1 w2 H.
  assert (Hsend : respects faceDetector_send)
    by (unfold faceDetector_send, record; agree).
  assert (Hsw := respects_showWarning msg_CameraBlocked).
  specialize (Hsend w1 w2 H). specialize (Hsw w1 w2 H).
  unfold onFrame, bind, gets, videoRef_current.
  assert (Href : refAttached w1 = refAttached w2) by (same; reflexivity).
  assert (Hrs : readyState (video w1) = readyState (video w2)) by (same; reflexivity).
  assert (Hvw : videoWidth (video w1) = videoWidth (video w2)) by (same; reflexivity).
  rewrite Href.
  destruct (refAttached w2); cbv beta iota; [| split; [reflexivity | exact H]].
  rewrite Hrs, Hvw.
  destruct ((readyState (video w2) <? 2)%N || (videoWidth (video w2) =? 0)%N);
    assumption.
Qed.

Lemma respects_dispatch (ty : EventType) : respects (dispatchEvent clock ty).
Proof.
  unfold dispatchEvent. apply respects_bind; [agree | intros ls].
  apply respects_when.
  destruct ty; unfold handler, handleVisibilityChange, handleBlur,
    handleFullscreenChange, handleDeviceChange;
    try apply respects_showWarning;
    (apply respects_bind; [agree | intros ?]; apply respects_when,
      respects_showWarning).
Qed.

Lemma respects_cleanup : respects (cleanup throws).
Proof.
  assert (Hrm : forall ty, respects (removeEventListener throws ty)).
  { intros ty. unfold removeEventListener, record.
    apply respects_bind; [agree | intros _].
    destruct (throws (RemoveListener ty)); agree. }
  assert (Hstop : respects (Camera_stop throws)).
  { unfold Camera_stop, record.
    apply respects_bind; [agree | intros _].
    destruct (throws CameraStop); [agree |].
    apply respects_modify. intros w1 w2 H. same. reflexivity. }
  unfold cleanup.
  repeat (apply respects_bind; [apply Hrm | intros _]).
  apply respects_bind; [agree |].
  intros [c |]; [exact Hstop | agree].
Qed.

Lemma respects_initCamera_resume (stream : nat) :
  respects (initCamera_resume stream).
Proof.
  intros w1 w2 H. unfold initCamera_resume, Camera_start, bind, gets, modify,
    videoRef_current, ret.
  same. destruct ra2; cbn; split; reflexivity.
Qed.

(** A continuation that asks only whether the video element is there. *)
Lemma respects_ref {A} (k : option HTMLVideoElement -> JS A) :
  (forall v1 v2, k (Some v1) = k (Some v2)) ->
  (forall r, respects (k r)) ->
  respects (bind (gets videoRef_current) k).
Proof.
  intros Hk Hr w1 w2 H.
  assert (Href : refAttached w1 = refAttached w2) by (same; reflexivity).
  change (bind (gets videoRef_current) k w1) with (k (videoRef_current w1) w1).
  change (bind (gets videoRef_current) k w2) with (k (videoRef_current w2) w2).
  unfold videoRef_current. rewrite Href. destruct (refAttached w2); [| apply Hr, H].
  rewrite (Hk (video w1) (video w2)). apply Hr, H.
Qed.

Lemma respects_mount (src : Source) : respects (step clock throws (EvMount src)).
Proof.
  assert (Hadd : respects addListeners).
  { unfold addListeners, addEventListener. agree. }
  assert (Hrender : respects (modify render)).
  { apply respects_modify. intros w1 w2 H. same. reflexivity. }
  destruct src; cbn [step]; unfold mount_inline, mount_autostart, initCamera,
    Camera_start; (apply respects_bind; [exact Hrender | intros _]).
  - apply respects_bind; [agree | intros _].
    apply respects_bind; [agree | intros _].
    apply respects_ref; [reflexivity |].
    intros [v |]; (apply respects_bind; [agree | intros _; exact Hadd]).
  - apply respects_bind; [agree | intros _].
    apply respects_bind; [agree | intros _].
    apply respects_bind; [agree | intros _].
    exact Hadd.
Qed.

Lemma respects_step (e : Event) : respects (step clock throws e).
Proof.
  destruct e; try apply respects_mount; cbn [step].
  - apply respects_bind; [agree | intros _; apply respects_cleanup].
  - apply respects_bind; [agree | intros _; apply respects_dispatch].
  - apply respects_dispatch.
  - apply respects_bind; [agree | intros _; apply respects_dispatch].
  - apply respects_dispatch.
  - apply respects_modify. intros w1 w2 H. same. reflexivity.
  - apply respects_bind; [agree |]. intros [c |]; [| agree].
    apply respects_when, respects_onFrame.
  - apply respects_bind; [agree |]. intros [| k]; [agree |].
    apply respects_bind; [agree | intros _; apply respects_onResults].
  - apply respects_bind; [agree |]. intros [[] |]; [| agree | agree].
    apply respects_bind; [agree | intros _].
    apply respects_bind.
    { apply respects_modify. intros w1 w2 H. same. reflexivity. }
    intros _. apply respects_try_catch;
      [apply respects_initCamera_resume | apply respects_showWarning].
  - apply respects_bind; [agree |]. intros [[] |]; agree.
  - apply respects_bind; [agree |]. intros [a |]; [| agree].
    apply respects_bind; [agree | intros _; apply respects_showWarning].
Qed.

Lemma respects_run (evs : list Event) :
  forall w1 w2, same_core w1 w2 ->
    same_core (run clock throws evs w1) (run clock throws evs w2).
Proof.
  induction evs as [| e rest IH]; intros w1 w2 H; [exact H |].
  cbn [run]. apply IH. apply (respects_step e w1 w2 H).
Qed.

Lemma same_core_observed (w1 w2 : World) :
  same_core w1 w2 ->
  WarningState w1 = WarningState w2 /\
  history w1 = history w2 /\
  listeners w1 = listeners w2 /\
  camera w1 = camera w2 /\
  inflight w1 = inflight w2.
Proof. intros H. same. repeat split; reflexivity. Qed.

Lemma run_append (xs ys : list Event) (w : World) :
  run clock throws (xs ++ ys) w = run clock throws ys (run clock throws xs w).
Proof.
  revert w. induction xs as [| e rest IH]; intros w; [reflexivity |].
  cbn [run app]. apply IH.
Qed.

Lemma copies_start (stream : nat) :
  same_core
    (run clock throws [EvMount Inline; EvStarted] initial)
    (run clock throws [EvMount AutoStart; EvGranted stream; EvStarted] initial).
Proof. vm_compute. reflexivity. Qed.

(** X20. Once the camera has started, the two copies of the component are the
    same monitor: after the same events, whatever they are, they show the
    same warning with the same time of last acceptance, have sent the same
    signals and made the same detector and release calls, and hold the
    same listeners and camera state.  They differ only in the stream that
    [unnamed/part_000] requested itself. *)
Theorem copies_agree_once_started (stream : nat) (evs : list Event) :
  let inline := run clock throws (EvMount Inline :: EvStarted :: evs) initial in
  let autostart :=
    run clock throws (EvMount AutoStart :: EvGranted stream :: EvStarted :: evs)
      initial in
  WarningState inline = WarningState autostart /\
  history inline = history autostart /\
  listeners inline = listeners autostart /\
  camera inline = camera autostart /\
  inflight inline = inflight autostart.
Proof.
  cbv zeta.
  change (EvMount Inline :: EvStarted :: evs)
    with ([EvMount Inline; EvStarted] ++ evs).
  change (EvMount AutoStart :: EvGranted stream :: EvStarted :: evs)
    with ([EvMount AutoStart; EvGranted stream; EvStarted] ++ evs).
  rewrite !run_append.
  apply same_core_observed, respects_run, copies_start.
Qed.

End Copies.
